(** * GPU/Software/DrawPixel.cpp: the per-pixel software pipeline,
      the routine cache and the blend-state analysis.

    The C++ is embedded shallowly: machine integers are [Z] with their
    truncation written out, enums are inductive types, the frame buffer and
    the depth buffer are explicit state, the routine cache is a record with
    two finite maps. *)

From Stdlib Require Import ZArith Lia List Bool.
From stdpp Require Import base tactics decidable countable option list functions gmap.

Local Open Scope Z_scope.

(** ** Fixed-width integers *)

Definition u8 (v : Z) : Z := Z.land v 0xFF.
Definition u16 (v : Z) : Z := Z.land v 0xFFFF.
Definition u32 (v : Z) : Z := Z.land v 0xFFFFFFFF.

(** [~v] on a [u32] operand. *)
Definition not32 (v : Z) : Z := u32 (Z.lnot v).

(** ** Enumerations (GPU/ge_constants.h, GPU/Software/FuncId.h) *)

(** The four frame buffer encodings; [GE_FORMAT_INVALID] stands for the
    enumerators beyond them, which the [default:] branches receive. *)
Inductive GEBufferFormat :=
  | GE_FORMAT_565 | GE_FORMAT_5551 | GE_FORMAT_4444 | GE_FORMAT_8888
  | GE_FORMAT_INVALID.

Inductive GEComparison :=
  | GE_COMP_NEVER | GE_COMP_ALWAYS | GE_COMP_EQUAL | GE_COMP_NOTEQUAL
  | GE_COMP_LESS | GE_COMP_LEQUAL | GE_COMP_GREATER | GE_COMP_GEQUAL.

Inductive GEStencilOp :=
  | GE_STENCILOP_KEEP | GE_STENCILOP_ZERO | GE_STENCILOP_REPLACE
  | GE_STENCILOP_INVERT | GE_STENCILOP_INCR | GE_STENCILOP_DECR.

Inductive GELogicOp :=
  | GE_LOGIC_CLEAR | GE_LOGIC_AND | GE_LOGIC_AND_REVERSE | GE_LOGIC_COPY
  | GE_LOGIC_AND_INVERTED | GE_LOGIC_NOOP | GE_LOGIC_XOR | GE_LOGIC_OR
  | GE_LOGIC_NOR | GE_LOGIC_EQUIV | GE_LOGIC_INVERTED | GE_LOGIC_OR_REVERSE
  | GE_LOGIC_COPY_INVERTED | GE_LOGIC_OR_INVERTED | GE_LOGIC_NAND
  | GE_LOGIC_SET.

Inductive GEBlendMode :=
  | GE_BLENDMODE_MUL_AND_ADD | GE_BLENDMODE_MUL_AND_SUBTRACT
  | GE_BLENDMODE_MUL_AND_SUBTRACT_REVERSE
  | GE_BLENDMODE_MIN | GE_BLENDMODE_MAX | GE_BLENDMODE_ABSDIFF.

(** The ten factors [ComputePixelBlendState] names; [PBF_FIX], [PBF_ZERO]
    and [PBF_ONE] are the ones its [default:] branches receive. *)
Inductive PixelBlendFactor :=
  | PBF_OTHERCOLOR | PBF_INVOTHERCOLOR
  | PBF_SRCALPHA | PBF_INVSRCALPHA
  | PBF_DSTALPHA | PBF_INVDSTALPHA
  | PBF_DOUBLESRCALPHA | PBF_DOUBLEINVSRCALPHA
  | PBF_DOUBLEDSTALPHA | PBF_DOUBLEINVDSTALPHA
  | PBF_FIX | PBF_ZERO | PBF_ONE.

#[global] Instance GEBufferFormat_eq_dec : EqDecision GEBufferFormat.
Proof. solve_decision. Defined.
#[global] Instance GEComparison_eq_dec : EqDecision GEComparison.
Proof. solve_decision. Defined.
#[global] Instance GEStencilOp_eq_dec : EqDecision GEStencilOp.
Proof. solve_decision. Defined.
#[global] Instance GELogicOp_eq_dec : EqDecision GELogicOp.
Proof. solve_decision. Defined.
#[global] Instance GEBlendMode_eq_dec : EqDecision GEBlendMode.
Proof. solve_decision. Defined.
#[global] Instance PixelBlendFactor_eq_dec : EqDecision PixelBlendFactor.
Proof. solve_decision. Defined.

(** ** Math3D vectors of [int] (Common/Math/math3d.h) *)

Record Vec3 := mkVec3 { v3x : Z; v3y : Z; v3z : Z }.
Record Vec4 := mkVec4 { r4 : Z; g4 : Z; b4 : Z; a4 : Z }.

Definition clamp (lo hi v : Z) : Z :=
  if v <? lo then lo else if v >? hi then hi else v.

Definition clamp_u8 (v : Z) : Z := clamp 0 255 v.

(** Modelled from the spec: [Vec4<int>::Clamp], declared in math3d.h which
    is not under src/: out-of-range components are clamped to [lo, hi]. *)
Definition Vec4_Clamp (lo hi : Z) (c : Vec4) : Vec4 :=
  mkVec4 (clamp lo hi (r4 c)) (clamp lo hi (g4 c))
         (clamp lo hi (b4 c)) (clamp lo hi (a4 c)).

Definition Vec4_rgb (c : Vec4) : Vec3 := mkVec3 (r4 c) (g4 c) (b4 c).

(** Modelled from the spec: [Vec3<int>::ToRGB] (math3d.h, not under src/)
    clamps every channel to [0,255] and packs red in the low byte, as the
    comment "ToRGB() always automatically clamps" in [DrawSinglePixel] and
    the masks 0x00FFFFFF / 0xFF000000 of [ApplyLogicOp] require. *)
Definition Vec3_ToRGB (c : Vec3) : Z :=
  Z.lor (clamp_u8 (v3x c))
        (Z.lor (Z.shiftl (clamp_u8 (v3y c)) 8) (Z.shiftl (clamp_u8 (v3z c)) 16)).

(** Modelled from the spec: [Vec3<int>::FromRGB] / [Vec4<int>::FromRGBA]
    (math3d.h, not under src/): the inverse unpacking, one byte a channel. *)
Definition Vec3_FromRGB (c : Z) : Vec3 :=
  mkVec3 (u8 c) (u8 (Z.shiftr c 8)) (u8 (Z.shiftr c 16)).

Definition Vec4_FromRGBA (c : Z) : Vec4 :=
  mkVec4 (u8 c) (u8 (Z.shiftr c 8)) (u8 (Z.shiftr c 16)) (u8 (Z.shiftr c 24)).

Definition Vec3_map2 (f : Z -> Z -> Z) (a b : Vec3) : Vec3 :=
  mkVec3 (f (v3x a) (v3x b)) (f (v3y a) (v3y b)) (f (v3z a) (v3z b)).

Definition Vec3_scale (a : Vec3) (k : Z) : Vec3 :=
  mkVec3 (v3x a * k) (v3y a * k) (v3z a * k).

(** C++ [/] on [int] truncates toward zero: [Z.quot]. *)
Definition Vec3_div (a : Vec3) (k : Z) : Vec3 :=
  mkVec3 (Z.quot (v3x a) k) (Z.quot (v3y a) k) (Z.quot (v3z a) k).

Definition Vec3_addAll (a : Vec3) (k : Z) : Vec3 :=
  mkVec3 (v3x a + k) (v3y a + k) (v3z a + k).

Definition Vec4_addAll (c : Vec4) (k : Z) : Vec4 :=
  mkVec4 (r4 c + k) (g4 c + k) (b4 c + k) (a4 c + k).

(** ** The pipeline configuration key (GPU/Software/FuncId.h)

    The fields and accessors that DrawPixel.cpp reads; an accessor such as
    [AlphaTestFunc()] or [DepthClear()] is a projection here. *)

Record PixelFuncCached := {
  colorWriteMask : Z;
  ditherMatrix : list Z;
  fogColor : Z;
  minz : Z;
  maxz : Z;
  framebufStride : Z;
  depthbufStride : Z;
  logicOp : GELogicOp;
  stencilRef : Z;
  stencilTestMask : Z;
  alphaTestMask : Z;
  colorTestFunc : GEComparison;
  colorTestMask : Z;
  colorTestRef : Z
}.

Record PixelFuncID := {
  cached : PixelFuncCached;
  clearMode : bool;
  fbFormat : GEBufferFormat;
  applyDepthRange : bool;
  AlphaTestFunc : GEComparison;
  alphaTestRef : Z;
  hasAlphaTestMask : bool;
  applyFog : bool;
  colorTest : bool;
  applyColorWriteMask : bool;
  stencilTest : bool;
  StencilTestFunc : GEComparison;
  stencilTestRef : Z;
  hasStencilTestMask : bool;
  SFail : GEStencilOp;
  ZFail : GEStencilOp;
  ZPass : GEStencilOp;
  DepthTestFunc : GEComparison;
  depthWrite : bool;
  DepthClear : bool;
  ColorClear : bool;
  StencilClear : bool;
  alphaBlend : bool;
  AlphaBlendEq : GEBlendMode;
  AlphaBlendSrc : PixelBlendFactor;
  AlphaBlendDst : PixelBlendFactor;
  dithering : bool;
  applyLogicOp : bool
}.

(** *** Equality and hashing of keys *)

Definition GEBufferFormat_code (f : GEBufferFormat) : nat :=
  match f with
  | GE_FORMAT_565 => 0 | GE_FORMAT_5551 => 1 | GE_FORMAT_4444 => 2
  | GE_FORMAT_8888 => 3 | GE_FORMAT_INVALID => 4
  end%nat.

Definition GEComparison_code (c : GEComparison) : nat :=
  match c with
  | GE_COMP_NEVER => 0 | GE_COMP_ALWAYS => 1 | GE_COMP_EQUAL => 2
  | GE_COMP_NOTEQUAL => 3 | GE_COMP_LESS => 4 | GE_COMP_LEQUAL => 5
  | GE_COMP_GREATER => 6 | GE_COMP_GEQUAL => 7
  end%nat.

Definition GEStencilOp_code (o : GEStencilOp) : nat :=
  match o with
  | GE_STENCILOP_KEEP => 0 | GE_STENCILOP_ZERO => 1
  | GE_STENCILOP_REPLACE => 2 | GE_STENCILOP_INVERT => 3
  | GE_STENCILOP_INCR => 4 | GE_STENCILOP_DECR => 5
  end%nat.

Definition GEBlendMode_code (m : GEBlendMode) : nat :=
  match m with
  | GE_BLENDMODE_MUL_AND_ADD => 0 | GE_BLENDMODE_MUL_AND_SUBTRACT => 1
  | GE_BLENDMODE_MUL_AND_SUBTRACT_REVERSE => 2 | GE_BLENDMODE_MIN => 3
  | GE_BLENDMODE_MAX => 4 | GE_BLENDMODE_ABSDIFF => 5
  end%nat.

Definition PixelBlendFactor_code (f : PixelBlendFactor) : nat :=
  match f with
  | PBF_OTHERCOLOR => 0 | PBF_INVOTHERCOLOR => 1 | PBF_SRCALPHA => 2
  | PBF_INVSRCALPHA => 3 | PBF_DSTALPHA => 4 | PBF_INVDSTALPHA => 5
  | PBF_DOUBLESRCALPHA => 6 | PBF_DOUBLEINVSRCALPHA => 7
  | PBF_DOUBLEDSTALPHA => 8 | PBF_DOUBLEINVDSTALPHA => 9
  | PBF_FIX => 10 | PBF_ZERO => 11 | PBF_ONE => 12
  end%nat.

Definition bool_code (b : bool) : Z := if b then 1 else 0.

(** Modelled from the spec: [operator==] and [std::hash<PixelFuncID>]
    (FuncId.h, not under src/), which [std::unordered_map] calls on its
    keys.  A key is compared and hashed by its primary fields alone, the
    bit-fields that share their storage with the packed key [fullKey]; the
    [cached] block is "a secondary, derivable block ... never an
    independent source of truth" and takes no part in either.  Two keys
    that differ only in their [cached] block are one key to both maps.

    The bit layout is in the absent header; [fullKey] is the list of the
    bit-fields' values, which determines them and is determined by
    them. *)
Definition fullKey (i : PixelFuncID) : list Z :=
  [ bool_code (clearMode i);
    Z.of_nat (GEBufferFormat_code (fbFormat i));
    bool_code (applyDepthRange i);
    Z.of_nat (GEComparison_code (AlphaTestFunc i));
    alphaTestRef i;
    bool_code (hasAlphaTestMask i);
    bool_code (applyFog i);
    bool_code (colorTest i);
    bool_code (applyColorWriteMask i);
    bool_code (stencilTest i);
    Z.of_nat (GEComparison_code (StencilTestFunc i));
    stencilTestRef i;
    bool_code (hasStencilTestMask i);
    Z.of_nat (GEStencilOp_code (SFail i));
    Z.of_nat (GEStencilOp_code (ZFail i));
    Z.of_nat (GEStencilOp_code (ZPass i));
    Z.of_nat (GEComparison_code (DepthTestFunc i));
    bool_code (depthWrite i);
    bool_code (DepthClear i);
    bool_code (ColorClear i);
    bool_code (StencilClear i);
    bool_code (alphaBlend i);
    Z.of_nat (GEBlendMode_code (AlphaBlendEq i));
    Z.of_nat (PixelBlendFactor_code (AlphaBlendSrc i));
    Z.of_nat (PixelBlendFactor_code (AlphaBlendDst i));
    bool_code (dithering i);
    bool_code (applyLogicOp i) ].


(** ** Frame buffer and depth buffer (GPU/Software/Rasterizer.h) *)

(** Modelled from the spec: the two surfaces are external 2D pixel surfaces
    addressed by (x, y, stride) through get/set accessors; their
    declarations are not under src/.  A surface maps the cell index
    [x + y * stride] to the cell's value; a store truncates to the cell
    width.  One call of the pipeline uses a single width on the frame
    buffer, the one of its format. *)
Record Surfaces := { fb : Z -> Z; depthbuf : Z -> Z }.

Definition Get16 (buf : Z -> Z) (x y stride : Z) : Z := buf (x + y * stride).
Definition Get32 (buf : Z -> Z) (x y stride : Z) : Z := buf (x + y * stride).
Definition Set16 (buf : Z -> Z) (x y stride v : Z) : Z -> Z :=
  <[x + y * stride := u16 v]> buf.
Definition Set32 (buf : Z -> Z) (x y stride v : Z) : Z -> Z :=
  <[x + y * stride := u32 v]> buf.

(** ** Collaborators declared outside src/

    Common/Data/Convert/ColorConv.h and [AlphaBlendingResult] of
    GPU/Software/Rasterizer.cpp are parameters of the pipeline. *)

Class ColorConv := {
  Convert4To8 : Z -> Z;
  RGB565ToRGBA8888 : Z -> Z;
  RGBA5551ToRGBA8888 : Z -> Z;
  RGBA4444ToRGBA8888 : Z -> Z;
  RGBA8888ToRGB565 : Z -> Z;
  RGBA8888ToRGBA5551 : Z -> Z;
  RGBA8888ToRGBA4444 : Z -> Z
}.

Class Blender := {
  AlphaBlendingResult : PixelFuncID -> Vec4 -> Vec4 -> Vec3
}.

(** ** Pixel accessors *)

Definition GetPixelStencil `{ColorConv}
    (fmt : GEBufferFormat) (fbStride x y : Z) (f : Z -> Z) : Z :=
  match fmt with
  | GE_FORMAT_565 => 0
  | GE_FORMAT_5551 =>
      if Z.land (Get16 f x y fbStride) 0x8000 =? 0 then 0 else 0xFF
  | GE_FORMAT_4444 =>
      u8 (Convert4To8 (u8 (Z.shiftr (Get16 f x y fbStride) 12)))
  | _ => u8 (Z.shiftr (Get32 f x y fbStride) 24)
  end.

Definition SetPixelStencil
    (fmt : GEBufferFormat) (fbStride targetWriteMask x y value : Z)
    (f : Z -> Z) : Z -> Z :=
  match fmt with
  | GE_FORMAT_565 => f
  | GE_FORMAT_5551 =>
      if Z.land targetWriteMask 0x8000 =? 0 then
        let pixel := u16 (Z.land (Get16 f x y fbStride) (Z.lnot 0x8000)) in
        let pixel := u16 (Z.lor pixel (Z.shiftl (Z.land value 0x80) 8)) in
        Set16 f x y fbStride pixel
      else f
  | GE_FORMAT_4444 =>
      let write_mask := u16 (Z.lor targetWriteMask 0x0FFF) in
      let pixel := u16 (Z.land (Get16 f x y fbStride) write_mask) in
      let pixel :=
        u16 (Z.lor pixel
               (Z.land (Z.shiftl (u16 value) 8) (Z.lnot write_mask))) in
      Set16 f x y fbStride pixel
  | _ =>
      let write_mask := u32 (Z.lor targetWriteMask 0x00FFFFFF) in
      let pixel := u32 (Z.land (Get32 f x y fbStride) write_mask) in
      let pixel :=
        u32 (Z.lor pixel
               (Z.land (u32 (Z.shiftl (u32 value) 24)) (not32 write_mask))) in
      Set32 f x y fbStride pixel
  end.

Definition GetPixelDepth (x y stride : Z) (d : Z -> Z) : Z :=
  Get16 d x y stride.

Definition SetPixelDepth (x y stride value : Z) (d : Z -> Z) : Z -> Z :=
  Set16 d x y stride value.

Definition GetPixelColor `{ColorConv}
    (fmt : GEBufferFormat) (fbStride x y : Z) (f : Z -> Z) : Z :=
  match fmt with
  | GE_FORMAT_565 =>
      Z.land (u32 (RGB565ToRGBA8888 (u16 (Get16 f x y fbStride)))) 0x00FFFFFF
  | GE_FORMAT_5551 => u32 (RGBA5551ToRGBA8888 (u16 (Get16 f x y fbStride)))
  | GE_FORMAT_4444 => u32 (RGBA4444ToRGBA8888 (u16 (Get16 f x y fbStride)))
  | GE_FORMAT_8888 => Get32 f x y fbStride
  | _ => 0
  end.

(** The three 16-bit cases of [SetPixelColor] differ in the conversion
    only. *)
Definition SetPixelColor16 (conv : Z -> Z)
    (fbStride x y value old_value targetWriteMask : Z) (f : Z -> Z)
    : Z -> Z :=
  let value := u32 (u16 (conv value)) in
  let value :=
    if targetWriteMask =? 0 then value
    else
      let old_value := u32 (u16 (conv old_value)) in
      Z.lor (Z.land value (not32 targetWriteMask))
            (Z.land old_value targetWriteMask) in
  Set16 f x y fbStride value.

Definition SetPixelColor `{ColorConv}
    (fmt : GEBufferFormat) (fbStride x y value old_value targetWriteMask : Z)
    (f : Z -> Z) : Z -> Z :=
  match fmt with
  | GE_FORMAT_565 =>
      SetPixelColor16 RGBA8888ToRGB565
        fbStride x y value old_value targetWriteMask f
  | GE_FORMAT_5551 =>
      SetPixelColor16 RGBA8888ToRGBA5551
        fbStride x y value old_value targetWriteMask f
  | GE_FORMAT_4444 =>
      SetPixelColor16 RGBA8888ToRGBA4444
        fbStride x y value old_value targetWriteMask f
  | GE_FORMAT_8888 =>
      let value :=
        Z.lor (Z.land value (not32 targetWriteMask))
              (Z.land old_value targetWriteMask) in
      Set32 f x y fbStride value
  | _ => f
  end.

(** ** The tests *)

Definition AlphaTestPassed (pixelID : PixelFuncID) (alpha : Z) : bool :=
  let ref := alphaTestRef pixelID in
  let alpha :=
    if hasAlphaTestMask pixelID
    then Z.land alpha (alphaTestMask (cached pixelID)) else alpha in
  match AlphaTestFunc pixelID with
  | GE_COMP_NEVER => false
  | GE_COMP_ALWAYS => true
  | GE_COMP_EQUAL => alpha =? ref
  | GE_COMP_NOTEQUAL => negb (alpha =? ref)
  | GE_COMP_LESS => alpha <? ref
  | GE_COMP_LEQUAL => alpha <=? ref
  | GE_COMP_GREATER => alpha >? ref
  | GE_COMP_GEQUAL => alpha >=? ref
  end.

Definition ColorTestPassed (pixelID : PixelFuncID) (color : Vec3) : bool :=
  let mask := colorTestMask (cached pixelID) in
  let c := Z.land (Vec3_ToRGB color) mask in
  let ref := colorTestRef (cached pixelID) in
  match colorTestFunc (cached pixelID) with
  | GE_COMP_NEVER => false
  | GE_COMP_ALWAYS => true
  | GE_COMP_EQUAL => c =? ref
  | GE_COMP_NOTEQUAL => negb (c =? ref)
  | _ => true
  end.

Definition StencilTestPassed (pixelID : PixelFuncID) (stencil : Z) : bool :=
  let stencil :=
    if hasStencilTestMask pixelID
    then u8 (Z.land stencil (stencilTestMask (cached pixelID)))
    else stencil in
  let ref := stencilTestRef pixelID in
  match StencilTestFunc pixelID with
  | GE_COMP_NEVER => false
  | GE_COMP_ALWAYS => true
  | GE_COMP_EQUAL => ref =? stencil
  | GE_COMP_NOTEQUAL => negb (ref =? stencil)
  | GE_COMP_LESS => ref <? stencil
  | GE_COMP_LEQUAL => ref <=? stencil
  | GE_COMP_GREATER => ref >? stencil
  | GE_COMP_GEQUAL => ref >=? stencil
  end.

Definition ApplyStencilOp
    (fmt : GEBufferFormat) (stencilReplace : Z) (op : GEStencilOp)
    (old_stencil : Z) : Z :=
  match op with
  | GE_STENCILOP_KEEP => old_stencil
  | GE_STENCILOP_ZERO => 0
  | GE_STENCILOP_REPLACE => stencilReplace
  | GE_STENCILOP_INVERT => u8 (Z.lnot old_stencil)
  | GE_STENCILOP_INCR =>
      match fmt with
      | GE_FORMAT_8888 =>
          if negb (old_stencil =? 0xFF) then u8 (old_stencil + 1)
          else old_stencil
      | GE_FORMAT_5551 => 0xFF
      | GE_FORMAT_4444 =>
          if old_stencil <? 0xF0 then u8 (old_stencil + 0x10)
          else old_stencil
      | _ => old_stencil
      end
  | GE_STENCILOP_DECR =>
      match fmt with
      | GE_FORMAT_4444 =>
          if old_stencil >=? 0x10 then u8 (old_stencil - 0x10)
          else old_stencil
      | GE_FORMAT_5551 => 0
      | _ =>
          if negb (old_stencil =? 0) then u8 (old_stencil - 1)
          else old_stencil
      end
  end.

Definition DepthTestPassed
    (func : GEComparison) (x y stride z : Z) (d : Z -> Z) : bool :=
  let reference_z := GetPixelDepth x y stride d in
  match func with
  | GE_COMP_NEVER => false
  | GE_COMP_ALWAYS => true
  | GE_COMP_EQUAL => z =? reference_z
  | GE_COMP_NOTEQUAL => negb (z =? reference_z)
  | GE_COMP_LESS => z <? reference_z
  | GE_COMP_LEQUAL => z <=? reference_z
  | GE_COMP_GREATER => z >? reference_z
  | GE_COMP_GEQUAL => z >=? reference_z
  end.

(** All of the operations intentionally preserve alpha/stencil. *)
Definition ApplyLogicOp (op : GELogicOp) (old_color new_color : Z) : Z :=
  match op with
  | GE_LOGIC_CLEAR => Z.land new_color 0xFF000000
  | GE_LOGIC_AND => Z.land new_color (Z.lor old_color 0xFF000000)
  | GE_LOGIC_AND_REVERSE =>
      Z.land new_color (Z.lor (not32 old_color) 0xFF000000)
  | GE_LOGIC_COPY => new_color
  | GE_LOGIC_AND_INVERTED =>
      Z.lor (Z.land (not32 new_color) (Z.land old_color 0x00FFFFFF))
            (Z.land new_color 0xFF000000)
  | GE_LOGIC_NOOP =>
      Z.lor (Z.land old_color 0x00FFFFFF) (Z.land new_color 0xFF000000)
  | GE_LOGIC_XOR => Z.lxor new_color (Z.land old_color 0x00FFFFFF)
  | GE_LOGIC_OR => Z.lor new_color (Z.land old_color 0x00FFFFFF)
  | GE_LOGIC_NOR =>
      Z.lor (Z.land (not32 (Z.lor new_color old_color)) 0x00FFFFFF)
            (Z.land new_color 0xFF000000)
  | GE_LOGIC_EQUIV =>
      Z.lor (Z.land (not32 (Z.lxor new_color old_color)) 0x00FFFFFF)
            (Z.land new_color 0xFF000000)
  | GE_LOGIC_INVERTED =>
      Z.lor (Z.land (not32 old_color) 0x00FFFFFF)
            (Z.land new_color 0xFF000000)
  | GE_LOGIC_OR_REVERSE =>
      Z.lor new_color (Z.land (not32 old_color) 0x00FFFFFF)
  | GE_LOGIC_COPY_INVERTED =>
      Z.lor (Z.land (not32 new_color) 0x00FFFFFF)
            (Z.land new_color 0xFF000000)
  | GE_LOGIC_OR_INVERTED =>
      Z.lor (Z.land (Z.lor (not32 new_color) old_color) 0x00FFFFFF)
            (Z.land new_color 0xFF000000)
  | GE_LOGIC_NAND =>
      Z.lor (Z.land (not32 (Z.land new_color old_color)) 0x00FFFFFF)
            (Z.land new_color 0xFF000000)
  | GE_LOGIC_SET => Z.lor new_color 0x00FFFFFF
  end.

(** ** The generic pipeline *)

(** Where a call of [DrawSinglePixel] returned.  The C++ function returns
    [void]; the label names the [return] statement that was taken and is
    not part of the program's state. *)
Inductive PixelExit :=
  | ExitDepthRange | ExitAlphaTest | ExitColorTest
  | ExitStencilFail | ExitStencilZFail | ExitDepthTest
  | ExitWritten.

Definition ditherAt (pixelID : PixelFuncID) (x y : Z) : Z :=
  nth (Z.to_nat (Z.land y 3 * 4 + Z.land x 3))
      (ditherMatrix (cached pixelID)) 0.

(** The conditions of the early [return]s and the fog block, named. *)

(** [if (applyDepthRange) if (z < minz || z > maxz) return;] *)
Definition depthRangeFails (pixelID : PixelFuncID) (z : Z) : bool :=
  applyDepthRange pixelID
  && ((z <? minz (cached pixelID)) || (z >? maxz (cached pixelID))).

(** [if (AlphaTestFunc() != GE_COMP_ALWAYS && !clearMode)
       if (!AlphaTestPassed(pixelID, prim_color.a())) return;] *)
Definition alphaTestFails
    (clearMode : bool) (pixelID : PixelFuncID) (prim_color : Vec4) : bool :=
  negb (bool_decide (AlphaTestFunc pixelID = GE_COMP_ALWAYS))
  && negb clearMode
  && negb (AlphaTestPassed pixelID (a4 prim_color)).

(** Fog is applied prior to color test. *)
Definition applyFogStage
    (clearMode : bool) (fog : Z) (pixelID : PixelFuncID) (prim_color : Vec4)
    : Vec4 :=
  if applyFog pixelID && negb clearMode then
    let fogColor := Vec3_FromRGB (fogColor (cached pixelID)) in
    let fogColor :=
      Vec3_div
        (Vec3_map2 Z.add (Vec3_scale (Vec4_rgb prim_color) fog)
                         (Vec3_scale fogColor (255 - fog)))
        255 in
    mkVec4 (v3x fogColor) (v3y fogColor) (v3z fogColor) (a4 prim_color)
  else prim_color.

(** [if (colorTest && !clearMode)
       if (!ColorTestPassed(pixelID, prim_color.rgb())) return;] *)
Definition colorTestFails
    (clearMode : bool) (pixelID : PixelFuncID) (prim_color : Vec4) : bool :=
  colorTest pixelID && negb clearMode
  && negb (ColorTestPassed pixelID (Vec4_rgb prim_color)).

(** [DepthTestFunc() != GE_COMP_ALWAYS && !DepthTestPassed(...)] *)
Definition depthTestFails
    (pixelID : PixelFuncID) (x y z : Z) (d : Z -> Z) : bool :=
  negb (bool_decide (DepthTestFunc pixelID = GE_COMP_ALWAYS))
  && negb (DepthTestPassed (DepthTestFunc pixelID) x y
             (depthbufStride (cached pixelID)) (u16 z) d).

Section Pipeline.
Context `{ColorConv} `{Blender}.

(** The tail of [DrawSinglePixel] from the depth write on: every test has
    passed and [stencil] is the value to store.  The two preprocessor
    branches of the unblended case pack the same value for a [u8]
    stencil; the [_M_SSE] one is written here. *)
Definition DrawSinglePixel_write
    (clearMode : bool) (fbFormat : GEBufferFormat) (x y z : Z)
    (prim_color : Vec4) (pixelID : PixelFuncID)
    (targetWriteMask stencil : Z) (s : Surfaces) : Surfaces :=
  let d :=
    if depthWrite pixelID && negb clearMode
    then SetPixelDepth x y (depthbufStride (cached pixelID)) (u16 z)
           (depthbuf s)
    else depthbuf s in
  let old_color :=
    GetPixelColor fbFormat (framebufStride (cached pixelID)) x y (fb s) in
  let new_color :=
    if alphaBlend pixelID && negb clearMode then
      let dst := Vec4_FromRGBA old_color in
      let blended := AlphaBlendingResult pixelID prim_color dst in
      let blended :=
        if dithering pixelID
        then Vec3_addAll blended (ditherAt pixelID x y) else blended in
      u32 (Z.lor (Vec3_ToRGB blended) (Z.shiftl stencil 24))
    else
      let prim_color :=
        if dithering pixelID
        then Vec4_addAll prim_color (ditherAt pixelID x y)
        else prim_color in
      u32 (Z.lor (Vec3_ToRGB (Vec4_rgb prim_color)) (Z.shiftl stencil 24))
  in
  let new_color :=
    if applyLogicOp pixelID && negb clearMode
    then ApplyLogicOp (logicOp (cached pixelID)) old_color new_color
    else new_color in
  let new_color :=
    if clearMode then
      let new_color :=
        if negb (ColorClear pixelID)
        then Z.lor (Z.land new_color 0xFF000000)
                   (Z.land old_color 0x00FFFFFF)
        else new_color in
      if negb (StencilClear pixelID)
      then Z.lor (Z.land new_color 0x00FFFFFF)
                 (Z.land old_color 0xFF000000)
      else new_color
    else new_color in
  {| fb := SetPixelColor fbFormat (framebufStride (cached pixelID)) x y
             new_color old_color targetWriteMask (fb s);
     depthbuf := d |}.

Definition DrawSinglePixel_trace
    (clearMode : bool) (fbFormat : GEBufferFormat) (x y z fog : Z)
    (color_in : Vec4) (pixelID : PixelFuncID) (s : Surfaces)
    : PixelExit * Surfaces :=
  let prim_color := Vec4_Clamp 0 255 color_in in
  (* Depth range test - applied in clear mode, if not through mode. *)
  if depthRangeFails pixelID z then (ExitDepthRange, s)
  else if alphaTestFails clearMode pixelID prim_color
  then (ExitAlphaTest, s)
  else
    let prim_color := applyFogStage clearMode fog pixelID prim_color in
    if colorTestFails clearMode pixelID prim_color then (ExitColorTest, s)
    else
      (* In clear mode, it uses the alpha color as stencil. *)
      let targetWriteMask :=
        if applyColorWriteMask pixelID
        then colorWriteMask (cached pixelID) else 0 in
      let stencil :=
        if clearMode then u8 (a4 prim_color)
        else GetPixelStencil fbFormat (framebufStride (cached pixelID))
               x y (fb s) in
      if clearMode then
        let s :=
          if DepthClear pixelID
          then {| fb := fb s;
                  depthbuf :=
                    SetPixelDepth x y (depthbufStride (cached pixelID))
                      (u16 z) (depthbuf s) |}
          else s in
        (ExitWritten,
         DrawSinglePixel_write clearMode fbFormat x y z prim_color pixelID
           targetWriteMask stencil s)
      else if stencilTest pixelID then
        let stencilReplace :=
          if hasStencilTestMask pixelID
          then stencilRef (cached pixelID) else stencilTestRef pixelID in
        if negb (StencilTestPassed pixelID stencil) then
          let stencil :=
            ApplyStencilOp fbFormat stencilReplace (SFail pixelID) stencil in
          (ExitStencilFail,
           {| fb := SetPixelStencil fbFormat
                      (framebufStride (cached pixelID)) targetWriteMask
                      x y stencil (fb s);
              depthbuf := depthbuf s |})
        else if depthTestFails pixelID x y z (depthbuf s) then
          (* Also apply depth at the same time. *)
          let stencil :=
            ApplyStencilOp fbFormat stencilReplace (ZFail pixelID) stencil in
          (ExitStencilZFail,
           {| fb := SetPixelStencil fbFormat
                      (framebufStride (cached pixelID)) targetWriteMask
                      x y stencil (fb s);
              depthbuf := depthbuf s |})
        else
          let stencil :=
            ApplyStencilOp fbFormat stencilReplace (ZPass pixelID) stencil in
          (ExitWritten,
           DrawSinglePixel_write clearMode fbFormat x y z prim_color pixelID
             targetWriteMask stencil s)
      else if depthTestFails pixelID x y z (depthbuf s)
      then (ExitDepthTest, s)
      else
        (ExitWritten,
         DrawSinglePixel_write clearMode fbFormat x y z prim_color pixelID
           targetWriteMask stencil s).

(** [DrawSinglePixel<clearMode, fbFormat>]: the effect on the surfaces. *)
Definition DrawSinglePixel
    (clearMode : bool) (fbFormat : GEBufferFormat) (x y z fog : Z)
    (color_in : Vec4) (pixelID : PixelFuncID) (s : Surfaces) : Surfaces :=
  snd (DrawSinglePixel_trace clearMode fbFormat x y z fog color_in
         pixelID s).

End Pipeline.

(** The bits of a frame buffer cell that hold colour, by format: all of a
    [565] cell, all but the top bit of [5551], the low three nibbles of
    [4444], the low three bytes of [8888]. *)
Definition colorBits (fmt : GEBufferFormat) : Z :=
  match fmt with
  | GE_FORMAT_565 => 0xFFFF
  | GE_FORMAT_5551 => 0x7FFF
  | GE_FORMAT_4444 => 0x0FFF
  | _ => 0x00FFFFFF
  end.

(** ** Routines and the routine cache *)

(** What a [SingleFunc] function pointer can point to: code emitted into
    the code buffer, or one of the eight instantiations of
    [DrawSinglePixel].  [None] is [nullptr]. *)
Inductive Routine :=
  | JitCode (entry : Z)
  | GenericPixel (clearMode : bool) (fbFormat : GEBufferFormat).

#[global] Instance Routine_eq_dec : EqDecision Routine.
Proof. solve_decision. Defined.

(** The base class [CodeBlock] (Common/CodeBlock.h) is not under src/; the
    cache is written against the three members it calls. *)
Class CodeBlockOps (CB : Type) := {
  GetSpaceLeft : CB -> Z;
  GetCodePointer : CB -> Z;
  CodeBlock_Clear : CB -> CB
}.

(** The four constant pointers [Clear] resets; [None] is [nullptr]. *)
Record JitConsts := {
  constBlendHalf_11_4s_ : option Z;
  constBlendInvert_11_4s_ : option Z;
  const255_16s_ : option Z;
  constBy255i_ : option Z
}.

(** The code generator [CompileSingle] (DrawPixelX86.cpp) is not under
    src/.  It emits into the code block and may set the constant pointers;
    it gets no access to the two maps. *)
Class CodeGen (CB : Type) := {
  CompileSingle : PixelFuncID -> CB -> JitConsts -> option Routine * CB * JitConsts
}.

(** [#if PPSSPP_ARCH(AMD64) && !PPSSPP_PLATFORM(UWP)]: decided when the
    program is built, the same for every call. *)
Class JitPlatform := {
  PPSSPP_ARCH_AMD64 : bool;
  PPSSPP_PLATFORM_UWP : bool
}.

(** The global [g_Config] (Core/Config.h), of which [GetSingle] reads one
    member on every miss.  Other code writes it: each call is given the
    value it has at that call. *)
Record Config := { bSoftwareRenderingJit : bool }.

Definition jitEnabled `{JitPlatform} (g_Config : Config) : bool :=
  PPSSPP_ARCH_AMD64 && negb PPSSPP_PLATFORM_UWP
  && bSoftwareRenderingJit g_Config.

(** The two maps are indexed by what [operator==] and the hash see of a
    [PixelFuncID], its [fullKey].  The one place that reads a stored key
    back, the loop of [DescribeCodePtr], is switched off ([USE_IDS] is
    [false]).
    [compileLog] is a ghost field: the keys [CompileSingle] was invoked
    with, latest first.  No code reads it. *)
Record PixelJitCache (CB : Type) := {
  block : CB;
  cache_ : gmap (list Z) (option Routine);
  addresses_ : gmap (list Z) Z;
  consts : JitConsts;
  compileLog : list PixelFuncID
}.
Arguments block {CB} _.
Arguments cache_ {CB} _.
Arguments addresses_ {CB} _.
Arguments consts {CB} _.
Arguments compileLog {CB} _.

Definition nullConsts : JitConsts :=
  {| constBlendHalf_11_4s_ := None; constBlendInvert_11_4s_ := None;
     const255_16s_ := None; constBy255i_ := None |}.

Definition GenericSingle (id : PixelFuncID) : option Routine :=
  let nonClear :=
    match fbFormat id with
    | GE_FORMAT_565 => Some (GenericPixel false GE_FORMAT_565)
    | GE_FORMAT_5551 => Some (GenericPixel false GE_FORMAT_5551)
    | GE_FORMAT_4444 => Some (GenericPixel false GE_FORMAT_4444)
    | GE_FORMAT_8888 => Some (GenericPixel false GE_FORMAT_8888)
    | _ => None
    end in
  if clearMode id then
    match fbFormat id with
    | GE_FORMAT_565 => Some (GenericPixel true GE_FORMAT_565)
    | GE_FORMAT_5551 => Some (GenericPixel true GE_FORMAT_5551)
    | GE_FORMAT_4444 => Some (GenericPixel true GE_FORMAT_4444)
    | GE_FORMAT_8888 => Some (GenericPixel true GE_FORMAT_8888)
    | _ => nonClear
    end
  else nonClear.

(** How often [CompileSingle] was invoked with a key equal to [id]. *)
Definition count_compiles (id : PixelFuncID) (log : list PixelFuncID) : nat :=
  length (filter (λ k, fullKey k = fullKey id) log).

Section JitCache.
Context {CB : Type} `{CodeBlockOps CB} `{CodeGen CB} `{JitPlatform}.

(** [PixelJitCache::Clear]. *)
Definition Clear (c : PixelJitCache CB) : PixelJitCache CB :=
  {| block := CodeBlock_Clear (block c);
     cache_ := ∅;
     addresses_ := ∅;
     consts := nullConsts;
     compileLog := compileLog c |}.

(** The miss path of [GetSingle] resets: the key is absent and fewer
    than 65536 bytes are left. *)
Definition resets (id : PixelFuncID) (c : PixelJitCache CB) : bool :=
  bool_decide (cache_ c !! fullKey id = None)
  && (GetSpaceLeft (block c) <? 65536).

(** [GetSingle] after the lookup has missed and the space was checked. *)
Definition GetSingle_compile (g_Config : Config) (id : PixelFuncID)
    (c : PixelJitCache CB) : option Routine * PixelJitCache CB :=
  if jitEnabled g_Config then
    let addresses := <[fullKey id := GetCodePointer (block c)]> (addresses_ c) in
    let '(func, b, k) := CompileSingle id (block c) (consts c) in
    (func,
     {| block := b;
        cache_ := <[fullKey id := func]> (cache_ c);
        addresses_ := addresses;
        consts := k;
        compileLog := id :: compileLog c |})
  else (None, c).

(** [PixelJitCache::GetSingle]; the lock makes a call atomic. *)
Definition GetSingle (g_Config : Config) (id : PixelFuncID)
    (c : PixelJitCache CB) : option Routine * PixelJitCache CB :=
  match cache_ c !! fullKey id with
  | Some f => (f, c)
  | None =>
      (* x64 is typically 200-500 bytes, but let's be safe. *)
      let c := if GetSpaceLeft (block c) <? 65536 then Clear c else c in
      GetSingle_compile g_Config id c
  end.

Definition GetSingleFunc (g_Config : Config) (id : PixelFuncID)
    (c : PixelJitCache CB) : option Routine * PixelJitCache CB :=
  let '(jitted, c) := GetSingle g_Config id c in
  match jitted with
  | Some r => (Some r, c)
  | None => (GenericSingle id, c)
  end.

(** A run of [GetSingle] calls, each with the value [g_Config] has when
    it is made, for what happens between two calls. *)
Fixpoint GetSingle_run (reqs : list (Config * PixelFuncID))
    (c : PixelJitCache CB) : PixelJitCache CB :=
  match reqs with
  | [] => c
  | (g, id) :: reqs => GetSingle_run reqs (snd (GetSingle g id c))
  end.


(** Code generation is off at every call of the run. *)
Definition jit_off_throughout (reqs : list (Config * PixelFuncID)) : Prop :=
  Forall (λ q, jitEnabled (fst q) = false) reqs.


End JitCache.


(** ** Blend state analysis *)

Record PixelBlendState := {
  usesFactors : bool;
  usesDstAlpha : bool;
  dstColorAsFactor : bool;
  srcColorAsFactor : bool;
  dstFactorIsInverse : bool
}.

(** A [PixelBlendState] no flag of which was set yet. *)
Definition PixelBlendState_init : PixelBlendState :=
  {| usesFactors := false; usesDstAlpha := false; dstColorAsFactor := false;
     srcColorAsFactor := false; dstFactorIsInverse := false |}.

Definition set_usesFactors (v : bool) (s : PixelBlendState) :=
  {| usesFactors := v; usesDstAlpha := usesDstAlpha s;
     dstColorAsFactor := dstColorAsFactor s;
     srcColorAsFactor := srcColorAsFactor s;
     dstFactorIsInverse := dstFactorIsInverse s |}.
Definition set_usesDstAlpha (v : bool) (s : PixelBlendState) :=
  {| usesFactors := usesFactors s; usesDstAlpha := v;
     dstColorAsFactor := dstColorAsFactor s;
     srcColorAsFactor := srcColorAsFactor s;
     dstFactorIsInverse := dstFactorIsInverse s |}.
Definition set_dstColorAsFactor (v : bool) (s : PixelBlendState) :=
  {| usesFactors := usesFactors s; usesDstAlpha := usesDstAlpha s;
     dstColorAsFactor := v;
     srcColorAsFactor := srcColorAsFactor s;
     dstFactorIsInverse := dstFactorIsInverse s |}.
Definition set_srcColorAsFactor (v : bool) (s : PixelBlendState) :=
  {| usesFactors := usesFactors s; usesDstAlpha := usesDstAlpha s;
     dstColorAsFactor := dstColorAsFactor s;
     srcColorAsFactor := v;
     dstFactorIsInverse := dstFactorIsInverse s |}.
Definition set_dstFactorIsInverse (v : bool) (s : PixelBlendState) :=
  {| usesFactors := usesFactors s; usesDstAlpha := usesDstAlpha s;
     dstColorAsFactor := dstColorAsFactor s;
     srcColorAsFactor := srcColorAsFactor s;
     dstFactorIsInverse := v |}.

(** [ComputePixelBlendState(state, id)]: [state] is updated in place, so
    the incoming [state] is an argument and the result is the outgoing
    one. *)
Definition ComputePixelBlendState (state : PixelBlendState) (id : PixelFuncID)
    : PixelBlendState :=
  let state :=
    match AlphaBlendEq id with
    | GE_BLENDMODE_MUL_AND_ADD
    | GE_BLENDMODE_MUL_AND_SUBTRACT
    | GE_BLENDMODE_MUL_AND_SUBTRACT_REVERSE => set_usesFactors true state
    | GE_BLENDMODE_MIN | GE_BLENDMODE_MAX | GE_BLENDMODE_ABSDIFF => state
    end in
  if usesFactors state then
    let state :=
      match AlphaBlendSrc id with
      | PBF_DSTALPHA | PBF_INVDSTALPHA
      | PBF_DOUBLEDSTALPHA | PBF_DOUBLEINVDSTALPHA =>
          set_usesDstAlpha true state
      | PBF_OTHERCOLOR | PBF_INVOTHERCOLOR =>
          set_dstColorAsFactor true state
      | PBF_SRCALPHA | PBF_INVSRCALPHA
      | PBF_DOUBLESRCALPHA | PBF_DOUBLEINVSRCALPHA =>
          set_srcColorAsFactor true state
      | _ => state
      end in
    let state :=
      match AlphaBlendDst id with
      | PBF_INVSRCALPHA =>
          set_srcColorAsFactor true
            (set_dstFactorIsInverse
               (bool_decide (AlphaBlendSrc id = PBF_SRCALPHA)) state)
      | PBF_DOUBLEINVSRCALPHA =>
          set_srcColorAsFactor true
            (set_dstFactorIsInverse
               (bool_decide (AlphaBlendSrc id = PBF_DOUBLESRCALPHA)) state)
      | PBF_DSTALPHA => set_usesDstAlpha true state
      | PBF_INVDSTALPHA =>
          set_usesDstAlpha true
            (set_dstFactorIsInverse
               (bool_decide (AlphaBlendSrc id = PBF_DSTALPHA)) state)
      | PBF_DOUBLEDSTALPHA => set_usesDstAlpha true state
      | PBF_DOUBLEINVDSTALPHA =>
          set_usesDstAlpha true
            (set_dstFactorIsInverse
               (bool_decide (AlphaBlendSrc id = PBF_DOUBLEDSTALPHA)) state)
      | PBF_OTHERCOLOR | PBF_INVOTHERCOLOR => set_srcColorAsFactor true state
      | PBF_SRCALPHA | PBF_DOUBLESRCALPHA => set_srcColorAsFactor true state
      | _ => state
      end in
    set_dstColorAsFactor (dstColorAsFactor state || usesDstAlpha state) state
  else state.

(** ** Instances used to evaluate the definitions *)

(** Modelled from the spec: [CodeBlock] (Common/CodeBlock.h, not under
    src/): one contiguous region of fixed capacity with an advancing write
    cursor; [Clear] invalidates every address issued before and rewinds the
    cursor to the start. *)
Record CodeBlock := {
  region_size : Z;
  code_offset : Z
}.

#[global] Instance CodeBlock_ops : CodeBlockOps CodeBlock := {
  GetSpaceLeft cb := region_size cb - code_offset cb;
  GetCodePointer cb := code_offset cb;
  CodeBlock_Clear cb := {| region_size := region_size cb; code_offset := 0 |}
}.

(** [PixelJitCache::PixelJitCache() : CodeBlock(1024 * 64 * 4)]. *)
Definition PixelJitCache_new {CB : Type} (alloc : Z -> CB) : PixelJitCache CB :=
  {| block := alloc (1024 * 64 * 4);
     cache_ := ∅;
     addresses_ := ∅;
     consts := nullConsts;
     compileLog := [] |}.

Definition CodeBlock_alloc (size : Z) : CodeBlock :=
  {| region_size := size; code_offset := 0 |}.

(** Modelled from the spec: the code generator (DrawPixelX86.cpp, not
    under src/): it emits the routine of the configuration at the write
    cursor, [size id] bytes long, and returns its start. *)
Definition emitAtCursor (size : PixelFuncID -> Z) : CodeGen CodeBlock :=
  {| CompileSingle := λ id cb k,
       (Some (JitCode (code_offset cb)),
        {| region_size := region_size cb;
           code_offset := code_offset cb + size id |},
        k) |}.

(** Every routine is 512 bytes long. *)
Definition size512 (id : PixelFuncID) : Z := 512.

(** An AMD64 build that is not UWP. *)
Definition amd64 : JitPlatform :=
  {| PPSSPP_ARCH_AMD64 := true; PPSSPP_PLATFORM_UWP := false |}.

Definition jitOn : Config := {| bSoftwareRenderingJit := true |}.

Definition jitOff : Config := {| bSoftwareRenderingJit := false |}.

(** Modelled from the spec: the conversions of ColorConv.h (not under
    src/): [565] has no alpha and keeps 5/6/5 bits, [5551] a 1-bit alpha
    in the top bit, [4444] a nibble per channel; widening replicates the
    high bits. *)
Definition Convert4To8_bits (v : Z) : Z := Z.lor (Z.shiftl v 4) v.
Definition Convert5To8_bits (v : Z) : Z := Z.lor (Z.shiftl v 3) (Z.shiftr v 2).
Definition Convert6To8_bits (v : Z) : Z := Z.lor (Z.shiftl v 2) (Z.shiftr v 4).

Definition packRGBA (r g b a : Z) : Z :=
  Z.lor (Z.lor (Z.shiftl a 24) (Z.shiftl b 16)) (Z.lor (Z.shiftl g 8) r).

Definition colorConvBits : ColorConv :=
  {| Convert4To8 := Convert4To8_bits;
     RGB565ToRGBA8888 := λ src,
       packRGBA (Convert5To8_bits (Z.land src 0x1F))
                (Convert6To8_bits (Z.land (Z.shiftr src 5) 0x3F))
                (Convert5To8_bits (Z.land (Z.shiftr src 11) 0x1F))
                0xFF;
     RGBA5551ToRGBA8888 := λ src,
       packRGBA (Convert5To8_bits (Z.land src 0x1F))
                (Convert5To8_bits (Z.land (Z.shiftr src 5) 0x1F))
                (Convert5To8_bits (Z.land (Z.shiftr src 10) 0x1F))
                (Z.shiftr src 15 * 255);
     RGBA4444ToRGBA8888 := λ src,
       packRGBA (Convert4To8_bits (Z.land src 0xF))
                (Convert4To8_bits (Z.land (Z.shiftr src 4) 0xF))
                (Convert4To8_bits (Z.land (Z.shiftr src 8) 0xF))
                (Convert4To8_bits (Z.land (Z.shiftr src 12) 0xF));
     RGBA8888ToRGB565 := λ v,
       Z.lor (Z.lor (Z.land (Z.shiftr v 3) 0x1F)
                    (Z.land (Z.shiftr v 5) 0x07E0))
             (Z.land (Z.shiftr v 8) 0xF800);
     RGBA8888ToRGBA5551 := λ v,
       Z.lor (Z.lor (Z.land (Z.shiftr v 3) 0x1F)
                    (Z.land (Z.shiftr v 6) 0x03E0))
             (Z.lor (Z.land (Z.shiftr v 9) 0x7C00)
                    (Z.land (Z.shiftr v 16) 0x8000));
     RGBA8888ToRGBA4444 := λ v,
       Z.lor (Z.lor (Z.land (Z.shiftr v 4) 0x000F)
                    (Z.land (Z.shiftr v 8) 0x00F0))
             (Z.lor (Z.land (Z.shiftr v 12) 0x0F00)
                    (Z.land (Z.shiftr v 16) 0xF000)) |}.

(** A blender that keeps the source colour; the configurations evaluated
    below have blending off. *)
Definition blendSource : Blender :=
  {| AlphaBlendingResult := λ _ src _, Vec4_rgb src |}.

(** A configuration with every test, fog, blending, dithering, the logic
    op and the write mask off, on an 8888 frame buffer of stride 512. *)
Definition plainCached : PixelFuncCached :=
  {| colorWriteMask := 0; ditherMatrix := repeat 0 16; fogColor := 0;
     minz := 0; maxz := 65535; framebufStride := 512; depthbufStride := 512;
     logicOp := GE_LOGIC_COPY; stencilRef := 0; stencilTestMask := 0xFF;
     alphaTestMask := 0xFF; colorTestFunc := GE_COMP_ALWAYS;
     colorTestMask := 0x00FFFFFF; colorTestRef := 0 |}.

Definition plainID : PixelFuncID :=
  {| cached := plainCached; clearMode := false; fbFormat := GE_FORMAT_8888;
     applyDepthRange := false; AlphaTestFunc := GE_COMP_ALWAYS;
     alphaTestRef := 0; hasAlphaTestMask := false; applyFog := false;
     colorTest := false; applyColorWriteMask := false; stencilTest := false;
     StencilTestFunc := GE_COMP_ALWAYS; stencilTestRef := 0;
     hasStencilTestMask := false; SFail := GE_STENCILOP_KEEP;
     ZFail := GE_STENCILOP_KEEP; ZPass := GE_STENCILOP_KEEP;
     DepthTestFunc := GE_COMP_ALWAYS; depthWrite := false;
     DepthClear := false; ColorClear := false; StencilClear := false;
     alphaBlend := false; AlphaBlendEq := GE_BLENDMODE_MUL_AND_ADD;
     AlphaBlendSrc := PBF_SRCALPHA; AlphaBlendDst := PBF_INVSRCALPHA;
     dithering := false; applyLogicOp := false |}.

(** Surfaces whose every frame buffer cell is [pixel] and every depth cell
    is [depth]. *)
Definition flatSurfaces (pixel depth : Z) : Surfaces :=
  {| fb := λ _, pixel; depthbuf := λ _, depth |}.

(** The 8888 configurations the statements below are evaluated on. *)

(** Clear mode, clearing depth and colour, with the depth range 10..20
    applied. *)
Definition clearRangeID : PixelFuncID :=
  {| cached :=
       {| colorWriteMask := 0; ditherMatrix := repeat 0 16; fogColor := 0;
          minz := 10; maxz := 20; framebufStride := 512;
          depthbufStride := 512; logicOp := GE_LOGIC_COPY; stencilRef := 0;
          stencilTestMask := 0xFF; alphaTestMask := 0xFF;
          colorTestFunc := GE_COMP_ALWAYS; colorTestMask := 0x00FFFFFF;
          colorTestRef := 0 |};
     clearMode := true; fbFormat := GE_FORMAT_8888;
     applyDepthRange := true; AlphaTestFunc := GE_COMP_ALWAYS;
     alphaTestRef := 0; hasAlphaTestMask := false; applyFog := false;
     colorTest := true; applyColorWriteMask := false; stencilTest := true;
     StencilTestFunc := GE_COMP_ALWAYS; stencilTestRef := 0;
     hasStencilTestMask := false; SFail := GE_STENCILOP_KEEP;
     ZFail := GE_STENCILOP_KEEP; ZPass := GE_STENCILOP_KEEP;
     DepthTestFunc := GE_COMP_ALWAYS; depthWrite := true;
     DepthClear := true; ColorClear := true; StencilClear := true;
     alphaBlend := false; AlphaBlendEq := GE_BLENDMODE_MUL_AND_ADD;
     AlphaBlendSrc := PBF_SRCALPHA; AlphaBlendDst := PBF_INVSRCALPHA;
     dithering := false; applyLogicOp := false |}.

(** The colour test enabled with compare op [func], mask 0xFFFFFF and
    reference [ref]. *)
Definition colorTestID (func : GEComparison) (ref : Z) : PixelFuncID :=
  {| cached :=
       {| colorWriteMask := 0; ditherMatrix := repeat 0 16; fogColor := 0;
          minz := 0; maxz := 65535; framebufStride := 512;
          depthbufStride := 512; logicOp := GE_LOGIC_COPY; stencilRef := 0;
          stencilTestMask := 0xFF; alphaTestMask := 0xFF;
          colorTestFunc := func; colorTestMask := 0x00FFFFFF;
          colorTestRef := ref |};
     clearMode := false; fbFormat := GE_FORMAT_8888;
     applyDepthRange := false; AlphaTestFunc := GE_COMP_ALWAYS;
     alphaTestRef := 0; hasAlphaTestMask := false; applyFog := false;
     colorTest := true; applyColorWriteMask := false; stencilTest := false;
     StencilTestFunc := GE_COMP_ALWAYS; stencilTestRef := 0;
     hasStencilTestMask := false; SFail := GE_STENCILOP_KEEP;
     ZFail := GE_STENCILOP_KEEP; ZPass := GE_STENCILOP_KEEP;
     DepthTestFunc := GE_COMP_ALWAYS; depthWrite := true;
     DepthClear := false; ColorClear := false; StencilClear := false;
     alphaBlend := false; AlphaBlendEq := GE_BLENDMODE_MUL_AND_ADD;
     AlphaBlendSrc := PBF_SRCALPHA; AlphaBlendDst := PBF_INVSRCALPHA;
     dithering := false; applyLogicOp := false |}.

(** The stencil test enabled: compare EQUAL with reference 5, stencil-fail
    op REPLACE, depth write on. *)
Definition stencilEqualID : PixelFuncID :=
  {| cached := plainCached;
     clearMode := false; fbFormat := GE_FORMAT_8888;
     applyDepthRange := false; AlphaTestFunc := GE_COMP_ALWAYS;
     alphaTestRef := 0; hasAlphaTestMask := false; applyFog := false;
     colorTest := false; applyColorWriteMask := false; stencilTest := true;
     StencilTestFunc := GE_COMP_EQUAL; stencilTestRef := 5;
     hasStencilTestMask := false; SFail := GE_STENCILOP_REPLACE;
     ZFail := GE_STENCILOP_KEEP; ZPass := GE_STENCILOP_KEEP;
     DepthTestFunc := GE_COMP_ALWAYS; depthWrite := true;
     DepthClear := false; ColorClear := false; StencilClear := false;
     alphaBlend := false; AlphaBlendEq := GE_BLENDMODE_MUL_AND_ADD;
     AlphaBlendSrc := PBF_SRCALPHA; AlphaBlendDst := PBF_INVSRCALPHA;
     dithering := false; applyLogicOp := false |}.

(** Blending enabled with the given equation and factors. *)
Definition blendID (eq : GEBlendMode) (src dst : PixelBlendFactor)
    : PixelFuncID :=
  {| cached := plainCached;
     clearMode := false; fbFormat := GE_FORMAT_8888;
     applyDepthRange := false; AlphaTestFunc := GE_COMP_ALWAYS;
     alphaTestRef := 0; hasAlphaTestMask := false; applyFog := false;
     colorTest := false; applyColorWriteMask := false; stencilTest := false;
     StencilTestFunc := GE_COMP_ALWAYS; stencilTestRef := 0;
     hasStencilTestMask := false; SFail := GE_STENCILOP_KEEP;
     ZFail := GE_STENCILOP_KEEP; ZPass := GE_STENCILOP_KEEP;
     DepthTestFunc := GE_COMP_ALWAYS; depthWrite := false;
     DepthClear := false; ColorClear := false; StencilClear := false;
     alphaBlend := true; AlphaBlendEq := eq;
     AlphaBlendSrc := src; AlphaBlendDst := dst;
     dithering := false; applyLogicOp := false |}.

(** A cache holding one routine, with 62144 bytes left of 262144. *)
Definition nearlyFullCache : PixelJitCache CodeBlock :=
  {| block := {| region_size := 262144; code_offset := 200000 |};
     cache_ := {[ fullKey plainID := Some (JitCode 199488) ]};
     addresses_ := {[ fullKey plainID := 199488 ]};
     consts := nullConsts;
     compileLog := [plainID] |}.



(** The reduction equations, which take no factors. *)
Definition reductionEq (eq : GEBlendMode) : Prop :=
  eq = GE_BLENDMODE_MIN \/ eq = GE_BLENDMODE_MAX \/ eq = GE_BLENDMODE_ABSDIFF.

(** ** Reference readings used by the statements below *)

(** The boolean function each logic op names, on one bit: [s] of the new
    (source) colour, [d] of the old (destination) colour. *)
Definition logicOpBit (op : GELogicOp) (s d : bool) : bool :=
  match op with
  | GE_LOGIC_CLEAR => false
  | GE_LOGIC_AND => s && d
  | GE_LOGIC_AND_REVERSE => s && negb d
  | GE_LOGIC_COPY => s
  | GE_LOGIC_AND_INVERTED => negb s && d
  | GE_LOGIC_NOOP => d
  | GE_LOGIC_XOR => xorb s d
  | GE_LOGIC_OR => s || d
  | GE_LOGIC_NOR => negb (s || d)
  | GE_LOGIC_EQUIV => negb (xorb s d)
  | GE_LOGIC_INVERTED => negb d
  | GE_LOGIC_OR_REVERSE => s || negb d
  | GE_LOGIC_COPY_INVERTED => negb s
  | GE_LOGIC_OR_INVERTED => negb s || d
  | GE_LOGIC_NAND => negb (s && d)
  | GE_LOGIC_SET => true
  end.

(** Fog enabled with fog colour [fogc], nothing else. *)
Definition fogID (fogc : Z) : PixelFuncID :=
  {| cached :=
       {| colorWriteMask := 0; ditherMatrix := repeat 0 16; fogColor := fogc;
          minz := 0; maxz := 65535; framebufStride := 512;
          depthbufStride := 512; logicOp := GE_LOGIC_COPY; stencilRef := 0;
          stencilTestMask := 0xFF; alphaTestMask := 0xFF;
          colorTestFunc := GE_COMP_ALWAYS; colorTestMask := 0x00FFFFFF;
          colorTestRef := 0 |};
     clearMode := false; fbFormat := GE_FORMAT_8888;
     applyDepthRange := false; AlphaTestFunc := GE_COMP_ALWAYS;
     alphaTestRef := 0; hasAlphaTestMask := false; applyFog := true;
     colorTest := false; applyColorWriteMask := false; stencilTest := false;
     StencilTestFunc := GE_COMP_ALWAYS; stencilTestRef := 0;
     hasStencilTestMask := false; SFail := GE_STENCILOP_KEEP;
     ZFail := GE_STENCILOP_KEEP; ZPass := GE_STENCILOP_KEEP;
     DepthTestFunc := GE_COMP_ALWAYS; depthWrite := false;
     DepthClear := false; ColorClear := false; StencilClear := false;
     alphaBlend := false; AlphaBlendEq := GE_BLENDMODE_MUL_AND_ADD;
     AlphaBlendSrc := PBF_SRCALPHA; AlphaBlendDst := PBF_INVSRCALPHA;
     dithering := false; applyLogicOp := false |}.

(** The comparison with the opposite verdict. *)
Definition negateComparison (func : GEComparison) : GEComparison :=
  match func with
  | GE_COMP_NEVER => GE_COMP_ALWAYS
  | GE_COMP_ALWAYS => GE_COMP_NEVER
  | GE_COMP_EQUAL => GE_COMP_NOTEQUAL
  | GE_COMP_NOTEQUAL => GE_COMP_EQUAL
  | GE_COMP_LESS => GE_COMP_GEQUAL
  | GE_COMP_LEQUAL => GE_COMP_GREATER
  | GE_COMP_GREATER => GE_COMP_LEQUAL
  | GE_COMP_GEQUAL => GE_COMP_LESS
  end.

(** The factors that read the destination alpha. *)
Definition readsDstAlpha (f : PixelBlendFactor) : bool :=
  match f with
  | PBF_DSTALPHA | PBF_INVDSTALPHA
  | PBF_DOUBLEDSTALPHA | PBF_DOUBLEINVDSTALPHA => true
  | _ => false
  end.

(** The destination factor is one minus the source factor. *)
Definition inversePair (src dst : PixelBlendFactor) : bool :=
  match src, dst with
  | PBF_SRCALPHA, PBF_INVSRCALPHA
  | PBF_DOUBLESRCALPHA, PBF_DOUBLEINVSRCALPHA
  | PBF_DSTALPHA, PBF_INVDSTALPHA
  | PBF_DOUBLEDSTALPHA, PBF_DOUBLEINVDSTALPHA => true
  | _, _ => false
  end.

Definition factorWeighted (eq : GEBlendMode) : bool :=
  match eq with
  | GE_BLENDMODE_MUL_AND_ADD | GE_BLENDMODE_MUL_AND_SUBTRACT
  | GE_BLENDMODE_MUL_AND_SUBTRACT_REVERSE => true
  | _ => false
  end.

(** Depth test LESS with depth writes on; the stencil test, when on,
    always passes and increments on depth failure. *)
Definition depthLessID (stencilOn : bool) : PixelFuncID :=
  {| cached := plainCached;
     clearMode := false; fbFormat := GE_FORMAT_8888;
     applyDepthRange := false; AlphaTestFunc := GE_COMP_ALWAYS;
     alphaTestRef := 0; hasAlphaTestMask := false; applyFog := false;
     colorTest := false; applyColorWriteMask := false;
     stencilTest := stencilOn;
     StencilTestFunc := GE_COMP_ALWAYS; stencilTestRef := 0;
     hasStencilTestMask := false; SFail := GE_STENCILOP_KEEP;
     ZFail := GE_STENCILOP_INCR; ZPass := GE_STENCILOP_REPLACE;
     DepthTestFunc := GE_COMP_LESS; depthWrite := true;
     DepthClear := false; ColorClear := false; StencilClear := false;
     alphaBlend := false; AlphaBlendEq := GE_BLENDMODE_MUL_AND_ADD;
     AlphaBlendSrc := PBF_SRCALPHA; AlphaBlendDst := PBF_INVSRCALPHA;
     dithering := false; applyLogicOp := false |}.

(** The colour write mask 0x00FF00FF on, logic op XOR, nothing else. *)
Definition maskedID : PixelFuncID :=
  {| cached :=
       {| colorWriteMask := 0x00FF00FF; ditherMatrix := repeat 0 16;
          fogColor := 0; minz := 0; maxz := 65535; framebufStride := 512;
          depthbufStride := 512; logicOp := GE_LOGIC_XOR; stencilRef := 0;
          stencilTestMask := 0xFF; alphaTestMask := 0xFF;
          colorTestFunc := GE_COMP_ALWAYS; colorTestMask := 0x00FFFFFF;
          colorTestRef := 0 |};
     clearMode := false; fbFormat := GE_FORMAT_8888;
     applyDepthRange := false; AlphaTestFunc := GE_COMP_ALWAYS;
     alphaTestRef := 0; hasAlphaTestMask := false; applyFog := false;
     colorTest := false; applyColorWriteMask := true; stencilTest := false;
     StencilTestFunc := GE_COMP_ALWAYS; stencilTestRef := 0;
     hasStencilTestMask := false; SFail := GE_STENCILOP_KEEP;
     ZFail := GE_STENCILOP_KEEP; ZPass := GE_STENCILOP_KEEP;
     DepthTestFunc := GE_COMP_ALWAYS; depthWrite := false;
     DepthClear := false; ColorClear := false; StencilClear := false;
     alphaBlend := false; AlphaBlendEq := GE_BLENDMODE_MUL_AND_ADD;
     AlphaBlendSrc := PBF_SRCALPHA; AlphaBlendDst := PBF_INVSRCALPHA;
     dithering := false; applyLogicOp := true |}.

(** The body of [if (state.usesFactors) { ... }] in
    [ComputePixelBlendState], as a function of the two factors. *)
Definition blendFactorFlags (src dst : PixelBlendFactor)
    (state : PixelBlendState) : PixelBlendState :=
  let state :=
    match src with
    | PBF_DSTALPHA | PBF_INVDSTALPHA
    | PBF_DOUBLEDSTALPHA | PBF_DOUBLEINVDSTALPHA =>
        set_usesDstAlpha true state
    | PBF_OTHERCOLOR | PBF_INVOTHERCOLOR =>
        set_dstColorAsFactor true state
    | PBF_SRCALPHA | PBF_INVSRCALPHA
    | PBF_DOUBLESRCALPHA | PBF_DOUBLEINVSRCALPHA =>
        set_srcColorAsFactor true state
    | _ => state
    end in
  let state :=
    match dst with
    | PBF_INVSRCALPHA =>
        set_srcColorAsFactor true
          (set_dstFactorIsInverse
             (bool_decide (src = PBF_SRCALPHA)) state)
    | PBF_DOUBLEINVSRCALPHA =>
        set_srcColorAsFactor true
          (set_dstFactorIsInverse
             (bool_decide (src = PBF_DOUBLESRCALPHA)) state)
    | PBF_DSTALPHA => set_usesDstAlpha true state
    | PBF_INVDSTALPHA =>
        set_usesDstAlpha true
          (set_dstFactorIsInverse
             (bool_decide (src = PBF_DSTALPHA)) state)
    | PBF_DOUBLEDSTALPHA => set_usesDstAlpha true state
    | PBF_DOUBLEINVDSTALPHA =>
        set_usesDstAlpha true
          (set_dstFactorIsInverse
             (bool_decide (src = PBF_DOUBLEDSTALPHA)) state)
    | PBF_OTHERCOLOR | PBF_INVOTHERCOLOR => set_srcColorAsFactor true state
    | PBF_SRCALPHA | PBF_DOUBLESRCALPHA => set_srcColorAsFactor true state
    | _ => state
    end in
  set_dstColorAsFactor (dstColorAsFactor state || usesDstAlpha state) state.

(** * Properties *)

(** ** Bit-level facts *)

Ltac bits_by_index n :=
  apply Z.bits_inj'; intros n ?.

Ltac bit_simpl :=
  repeat first
    [ rewrite Z.land_spec | rewrite Z.lor_spec | rewrite Z.lxor_spec
    | rewrite Z.lnot_spec by lia
    | rewrite Z.testbit_ones_nonneg by lia ].

Ltac bool_simpl :=
  rewrite ?andb_false_r, ?andb_true_r, ?orb_true_r, ?orb_false_r,
          ?andb_false_l, ?andb_true_l, ?orb_true_l, ?orb_false_l.

Lemma u8_small v : 0 <= v <= 255 -> u8 v = v.
Proof.
  intros Hv. unfold u8. change 0xFF with (Z.ones 8).
  rewrite Z.land_ones by lia. apply Z.mod_small. simpl. lia.
Qed.

Lemma u8_lnot v : 0 <= v <= 255 -> u8 (Z.lnot v) = 255 - v.
Proof.
  intros Hv. unfold u8, Z.lnot. change 0xFF with (Z.ones 8).
  rewrite Z.land_ones by lia. change (2 ^ 8) with 256.
  change (Z.ones 8) with 255.
  symmetry. apply (Z.mod_unique_pos _ _ (-1)); unfold Z.pred; lia.
Qed.

Lemma lxor_FF v : 0 <= v <= 255 -> Z.lxor v 0xFF = 255 - v.
Proof.
  intros Hv. rewrite <- u8_lnot by lia. unfold u8.
  change 0xFF with (Z.ones 8).
  bits_by_index n. bit_simpl.
  destruct (Z.ltb_spec n 8); bool_simpl.
  - apply xorb_true_r.
  - rewrite xorb_false_r. apply Z.bits_above_log2; [lia|].
    destruct (Z.eq_dec v 0) as [->|]; [simpl; lia|].
    apply Z.log2_lt_pow2; [lia|]. 
    assert (2 ^ 8 <= 2 ^ n) by (apply Z.pow_le_mono_r; lia).
    change (2 ^ 8) with 256 in *. lia.
Qed.

(** ** Stencil operations *)

Lemma ApplyStencilOp_INCR_range fmt repl old :
  0 <= old <= 255 ->
  old <= ApplyStencilOp fmt repl GE_STENCILOP_INCR old <= 255.
Proof.
  intros Hold. destruct fmt; simpl; try lia.
  - destruct (Z.ltb_spec old 0xF0); [rewrite u8_small|]; lia.
  - destruct (Z.eqb_spec old 0xFF); simpl; [|rewrite u8_small]; lia.
Qed.

Lemma ApplyStencilOp_DECR_range fmt repl old :
  0 <= old <= 255 ->
  0 <= ApplyStencilOp fmt repl GE_STENCILOP_DECR old <= old.
Proof.
  intros Hold. unfold ApplyStencilOp.
  destruct fmt; try lia;
    try (destruct (Z.eqb_spec old 0); simpl; [|rewrite u8_small]; lia).
  destruct (Z.geb_spec old 0x10); [rewrite u8_small|]; lia.
Qed.

(** C4: [ApplyStencilOp] saturates at the bounds of the format and never
    wraps.  For 4444, INCR leaves a stencil of 0xF0 or more unchanged and
    otherwise adds 0x10; DECR leaves a stencil below 0x10 unchanged and
    otherwise subtracts 0x10.  For 5551, INCR gives 0xFF and DECR gives 0.
    For 8888, INCR leaves 0xFF and DECR leaves 0 unchanged, stepping by one
    otherwise.  INVERT gives the bitwise complement of the old stencil for
    every format. *)
Theorem ApplyStencilOp_saturates (repl old : Z) :
  0 <= old <= 255 ->
  (0xF0 <= old ->
     ApplyStencilOp GE_FORMAT_4444 repl GE_STENCILOP_INCR old = old)
  /\ (old < 0xF0 ->
     ApplyStencilOp GE_FORMAT_4444 repl GE_STENCILOP_INCR old = old + 0x10)
  /\ (old < 0x10 ->
     ApplyStencilOp GE_FORMAT_4444 repl GE_STENCILOP_DECR old = old)
  /\ (0x10 <= old ->
     ApplyStencilOp GE_FORMAT_4444 repl GE_STENCILOP_DECR old = old - 0x10)
  /\ ApplyStencilOp GE_FORMAT_5551 repl GE_STENCILOP_INCR old = 0xFF
  /\ ApplyStencilOp GE_FORMAT_5551 repl GE_STENCILOP_DECR old = 0
  /\ ApplyStencilOp GE_FORMAT_8888 repl GE_STENCILOP_INCR 0xFF = 0xFF
  /\ ApplyStencilOp GE_FORMAT_8888 repl GE_STENCILOP_DECR 0 = 0
  /\ (old < 0xFF ->
     ApplyStencilOp GE_FORMAT_8888 repl GE_STENCILOP_INCR old = old + 1)
  /\ (0 < old ->
     ApplyStencilOp GE_FORMAT_8888 repl GE_STENCILOP_DECR old = old - 1)
  /\ (forall fmt,
     ApplyStencilOp fmt repl GE_STENCILOP_INVERT old = Z.lxor old 0xFF)
  /\ (forall fmt,
     old <= ApplyStencilOp fmt repl GE_STENCILOP_INCR old <= 255
     /\ 0 <= ApplyStencilOp fmt repl GE_STENCILOP_DECR old <= old).
Proof.
  intros Hold. repeat split; try reflexivity;
    try apply ApplyStencilOp_INCR_range; try apply ApplyStencilOp_DECR_range;
    try assumption.
  - intros Hge. simpl. destruct (Z.ltb_spec old 0xF0); [lia | reflexivity].
  - intros Hlt. simpl. destruct (Z.ltb_spec old 0xF0); [|lia].
    apply u8_small. lia.
  - intros Hlt. simpl. destruct (Z.geb_spec old 0x10); [lia | reflexivity].
  - intros Hge. simpl. destruct (Z.geb_spec old 0x10); [|lia].
    apply u8_small. lia.
  - intros Hlt. simpl. destruct (Z.eqb_spec old 0xFF); [lia|]. simpl.
    apply u8_small. lia.
  - intros Hgt. simpl. destruct (Z.eqb_spec old 0); [lia|]. simpl.
    apply u8_small. lia.
  - intros fmt. simpl. rewrite u8_lnot, lxor_FF by lia. reflexivity.
Qed.

Lemma ApplyStencilOp_saturates_at_F0 :
  ApplyStencilOp GE_FORMAT_4444 5 GE_STENCILOP_INCR 0xF0 = 0xF0
  /\ ApplyStencilOp GE_FORMAT_4444 5 GE_STENCILOP_DECR 0xF0 = 0xE0
  /\ ApplyStencilOp GE_FORMAT_8888 5 GE_STENCILOP_INVERT 0xF0 = 0x0F.
Proof.
  assert (Hr : 0 <= 0xF0 <= 255) by lia.
  destruct (ApplyStencilOp_saturates 5 0xF0 Hr)
    as (Hi & _ & _ & Hd & _ & _ & _ & _ & _ & _ & Hinv & _).
  split; [apply Hi; lia|]. split; [apply Hd; lia|]. apply Hinv.
Defined.

(** ** Writing the stencil back *)

Lemma fn_insert_same (f : Z -> Z) (i v : Z) : <[i:=v]> f i = v.
Proof. apply fn_lookup_insert. Qed.

Lemma keep_low24 old mask v :
  let wm := u32 (Z.lor mask 0x00FFFFFF) in
  Z.land (u32 (u32 (Z.lor (u32 (Z.land old wm))
            (Z.land (u32 (Z.shiftl (u32 v) 24)) (not32 wm))))) 0x00FFFFFF
  = Z.land old 0x00FFFFFF.
Proof.
  intros wm. subst wm. unfold not32, u32.
  change 0xFFFFFFFF with (Z.ones 32). change 0x00FFFFFF with (Z.ones 24).
  bits_by_index n. bit_simpl.
  destruct (Z.ltb_spec n 24); destruct (Z.ltb_spec n 32); try lia;
    bool_simpl; cbn [negb]; bool_simpl; reflexivity.
Qed.

Lemma keep_low12 old mask v :
  let wm := u16 (Z.lor mask 0x0FFF) in
  Z.land (u16 (u16 (Z.lor (u16 (Z.land old wm))
            (Z.land (Z.shiftl (u16 v) 8) (Z.lnot wm))))) 0x0FFF
  = Z.land old 0x0FFF.
Proof.
  intros wm. subst wm. unfold u16.
  change 0xFFFF with (Z.ones 16). change 0x0FFF with (Z.ones 12).
  bits_by_index n. bit_simpl.
  destruct (Z.ltb_spec n 12); destruct (Z.ltb_spec n 16); try lia;
    bool_simpl; cbn [negb]; bool_simpl; reflexivity.
Qed.

Lemma keep_low15 old v :
  Z.land (u16 (u16 (Z.lor (u16 (Z.land old (Z.lnot 0x8000)))
            (Z.shiftl (Z.land v 0x80) 8)))) 0x7FFF
  = Z.land old 0x7FFF.
Proof.
  unfold u16.
  change 0xFFFF with (Z.ones 16). change 0x7FFF with (Z.ones 15).
  change 0x8000 with (2 ^ 15). change 0x80 with (2 ^ 7).
  bits_by_index n. bit_simpl.
  rewrite Z.shiftl_spec by lia. rewrite Z.land_spec.
  rewrite !Z.pow2_bits_eqb by lia.
  destruct (Z.ltb_spec n 15); destruct (Z.ltb_spec n 16); try lia;
    bool_simpl; try reflexivity.
  destruct (Z.eqb_spec 15 n); [lia|].
  destruct (Z.eqb_spec 7 (n - 8)); [lia|].
  cbn [negb]; bool_simpl. reflexivity.
Qed.

Lemma SetPixelStencil_other fmt stride mask x y v (f : Z -> Z) i :
  i <> x + y * stride ->
  SetPixelStencil fmt stride mask x y v f i = f i.
Proof.
  intros Hi. unfold SetPixelStencil, Set16, Set32.
  destruct fmt; try reflexivity;
    try (rewrite fn_lookup_insert_ne by congruence; reflexivity).
  destruct (Z.land mask 0x8000 =? 0); [|reflexivity].
  rewrite fn_lookup_insert_ne by congruence. reflexivity.
Qed.

Lemma SetPixelStencil_colorBits fmt stride mask x y v (f : Z -> Z) i :
  Z.land (SetPixelStencil fmt stride mask x y v f i) (colorBits fmt)
  = Z.land (f i) (colorBits fmt).
Proof.
  destruct (Z.eq_dec i (x + y * stride)) as [->|Hne];
    [|rewrite SetPixelStencil_other by assumption; reflexivity].
  unfold SetPixelStencil, Set16, Set32, Get16, Get32.
  destruct fmt; simpl colorBits; try reflexivity;
    try (rewrite fn_insert_same; apply keep_low24).
  - destruct (Z.land mask 0x8000 =? 0); [|reflexivity].
    rewrite fn_insert_same. apply keep_low15.
  - rewrite fn_insert_same. apply keep_low12.
Qed.

Lemma high_byte_mask_bits mask n :
  Z.land mask 0xFF000000 = 0 -> 24 <= n < 32 -> Z.testbit mask n = false.
Proof.
  intros Hm Hn.
  assert (Hb : Z.testbit (Z.land mask 0xFF000000) n = false)
    by (rewrite Hm; apply Z.bits_0).
  change 0xFF000000 with (Z.shiftl (Z.ones 8) 24) in Hb.
  rewrite Z.land_spec, Z.shiftl_spec, Z.testbit_ones_nonneg in Hb by lia.
  destruct (Z.ltb_spec (n - 24) 8); [|lia].
  rewrite andb_true_r in Hb. exact Hb.
Qed.

Lemma GetPixelStencil_SetPixelStencil_8888
    `{ColorConv} stride mask x y v (f : Z -> Z) :
  Z.land mask 0xFF000000 = 0 ->
  GetPixelStencil GE_FORMAT_8888 stride x y
    (SetPixelStencil GE_FORMAT_8888 stride mask x y v f) = u8 v.
Proof.
  intros Hm. unfold GetPixelStencil, SetPixelStencil, Set32, Get32.
  rewrite fn_insert_same. unfold not32, u32, u8.
  change 0xFFFFFFFF with (Z.ones 32). change 0x00FFFFFF with (Z.ones 24).
  change 0xFF with (Z.ones 8).
  bits_by_index n. bit_simpl. rewrite Z.shiftr_spec by lia. bit_simpl.
  rewrite Z.shiftl_spec by lia. bit_simpl.
  replace (n + 24 - 24) with n by lia.
  destruct (Z.ltb_spec n 8); bool_simpl; [|reflexivity].
  rewrite (high_byte_mask_bits mask (n + 24)) by (assumption || lia).
  destruct (Z.ltb_spec (n + 24) 24); [lia|].
  destruct (Z.ltb_spec (n + 24) 32); [|lia].
  destruct (Z.ltb_spec n 32); [|lia].
  cbn [negb]; bool_simpl. reflexivity.
Qed.

(** ** The stages of the generic pipeline *)

Section PipelineFacts.
Context `{ColorConv} `{Blender}.

Ltac split_stages :=
  repeat match goal with
         | |- context [if ?b then _ else _] => destruct b eqn:?
         end; cbn [fst snd].

Lemma trace_ExitDepthRange cm fmt x y z fog color id s :
  fst (DrawSinglePixel_trace cm fmt x y z fog color id s) = ExitDepthRange
  <-> depthRangeFails id z = true.
Proof.
  unfold DrawSinglePixel_trace.
  destruct (depthRangeFails id z); [tauto|].
  split; [|discriminate]. split_stages; discriminate.
Qed.

Lemma trace_ExitColorTest cm fmt x y z fog color id s :
  fst (DrawSinglePixel_trace cm fmt x y z fog color id s) = ExitColorTest
  <-> depthRangeFails id z = false
      /\ alphaTestFails cm id (Vec4_Clamp 0 255 color) = false
      /\ colorTestFails cm id
           (applyFogStage cm fog id (Vec4_Clamp 0 255 color)) = true.
Proof.
  unfold DrawSinglePixel_trace.
  destruct (depthRangeFails id z); [cbn; intuition discriminate|].
  destruct (alphaTestFails cm id _); [cbn; intuition discriminate|].
  destruct (colorTestFails cm id _); [cbn; tauto|].
  split; [|intuition discriminate]. split_stages; discriminate.
Qed.

Lemma trace_rejected_early cm fmt x y z fog color id s :
  let e := fst (DrawSinglePixel_trace cm fmt x y z fog color id s) in
  e = ExitDepthRange \/ e = ExitAlphaTest \/ e = ExitColorTest
  \/ e = ExitDepthTest ->
  DrawSinglePixel cm fmt x y z fog color id s = s.
Proof.
  unfold DrawSinglePixel, DrawSinglePixel_trace. cbn zeta.
  split_stages; intros [|[|[|]]]; try discriminate; reflexivity.
Qed.

(** C2 (amended): the depth-range stage rejects the pixel, with no write
    to either surface, if and only if the depth-range test is enabled
    and z is outside [minz, maxz] -- in clear mode as well as outside
    it. *)
Theorem depth_range_rejects_in_every_mode cm fmt x y z fog color id s :
  (fst (DrawSinglePixel_trace cm fmt x y z fog color id s) = ExitDepthRange
   <-> applyDepthRange id = true
       /\ (z < minz (cached id) \/ z > maxz (cached id)))
  /\ (fst (DrawSinglePixel_trace cm fmt x y z fog color id s)
        = ExitDepthRange
      -> DrawSinglePixel cm fmt x y z fog color id s = s).
Proof.
  split.
  - rewrite trace_ExitDepthRange. unfold depthRangeFails.
    rewrite andb_true_iff, orb_true_iff, Z.ltb_lt, Z.gtb_gt. tauto.
  - intros He. apply trace_rejected_early. left. exact He.
Qed.

(** C3 (amended): the colour test is reached with the clamped, fogged
    colour; it rejects only when enabled and outside clear mode, and
    then compares the masked RGB (alpha excluded) with the reference
    under EQUAL and NOTEQUAL, always rejects under NEVER, and never
    rejects under ALWAYS, LESS, LEQUAL, GREATER and GEQUAL.  A rejected
    pixel leaves both surfaces as they were. *)
Theorem color_test_compare_ops cm fmt x y z fog color id s :
  let prim := applyFogStage cm fog id (Vec4_Clamp 0 255 color) in
  let c := Z.land (Vec3_ToRGB (Vec4_rgb prim)) (colorTestMask (cached id)) in
  let ref := colorTestRef (cached id) in
  (fst (DrawSinglePixel_trace cm fmt x y z fog color id s) = ExitColorTest
   <-> depthRangeFails id z = false
       /\ alphaTestFails cm id (Vec4_Clamp 0 255 color) = false
       /\ colorTest id = true /\ cm = false
       /\ match colorTestFunc (cached id) with
          | GE_COMP_NEVER => True
          | GE_COMP_EQUAL => c <> ref
          | GE_COMP_NOTEQUAL => c = ref
          | _ => False
          end)
  /\ (fst (DrawSinglePixel_trace cm fmt x y z fog color id s)
        = ExitColorTest
      -> DrawSinglePixel cm fmt x y z fog color id s = s).
Proof.
  intros prim c ref. split.
  - rewrite trace_ExitColorTest. fold prim.
    unfold colorTestFails, ColorTestPassed. fold c ref.
    rewrite !andb_true_iff, !negb_true_iff.
    destruct (colorTestFunc (cached id));
      try (destruct (Z.eqb_spec c ref)); cbn [negb];
      intuition (try discriminate; try congruence).
  - intros He. apply trace_rejected_early. tauto.
Qed.




End PipelineFacts.

(** *** The stages on concrete pixels *)

(** C2, as stated, fails in clear mode: with the depth range 10..20
    applied, z = 5 is rejected at the depth-range stage although the
    pipeline is in clear mode. *)
Lemma depth_range_rejects_in_clear_mode :
  ~ (fst (@DrawSinglePixel_trace colorConvBits blendSource
            true GE_FORMAT_8888 3 4 5 0 (mkVec4 10 20 30 255) clearRangeID
            (flatSurfaces 0 0)) = ExitDepthRange
     <-> applyDepthRange clearRangeID = true
         /\ true = false
         /\ (5 < minz (cached clearRangeID)
             \/ 5 > maxz (cached clearRangeID))).
Proof.
  intros [Hreject _].
  destruct Hreject as (_ & Hclear & _); [reflexivity | discriminate].
Qed.

Lemma depth_range_clear_mode_no_write :
  (fst (@DrawSinglePixel_trace colorConvBits blendSource
          true GE_FORMAT_8888 3 4 5 0 (mkVec4 10 20 30 255) clearRangeID
          (flatSurfaces 0 0)) = ExitDepthRange
   <-> applyDepthRange clearRangeID = true
       /\ (5 < minz (cached clearRangeID) \/ 5 > maxz (cached clearRangeID)))
  /\ @DrawSinglePixel colorConvBits blendSource
       true GE_FORMAT_8888 3 4 5 0 (mkVec4 10 20 30 255) clearRangeID
       (flatSurfaces 0 0) = flatSurfaces 0 0.
Proof.
  destruct (@depth_range_rejects_in_every_mode colorConvBits blendSource
              true GE_FORMAT_8888 3 4 5 0 (mkVec4 10 20 30 255) clearRangeID
              (flatSurfaces 0 0)) as [Hiff Hsame].
  split; [exact Hiff | apply Hsame; reflexivity].
Defined.

(** In range, the same clear writes the depth cell and the pixel. *)
Example clear_in_range_writes :
  let s' := @DrawSinglePixel colorConvBits blendSource
              true GE_FORMAT_8888 3 4 15 0 (mkVec4 10 20 30 255) clearRangeID
              (flatSurfaces 0 0) in
  depthbuf s' (3 + 4 * 512) = 15 /\ fb s' (3 + 4 * 512) = 0xFF1E140A.
Proof. split; reflexivity. Qed.

(** C3, as stated, fails for NEVER: the colour test rejects the pixel
    although the compare op is neither EQUAL nor NOTEQUAL. *)
Lemma color_test_never_rejects_pixel :
  ~ (colorTestFunc (cached (colorTestID GE_COMP_NEVER 0x1E140A))
       <> GE_COMP_EQUAL ->
     colorTestFunc (cached (colorTestID GE_COMP_NEVER 0x1E140A))
       <> GE_COMP_NOTEQUAL ->
     ColorTestPassed (colorTestID GE_COMP_NEVER 0x1E140A) (mkVec3 10 20 30)
       = true
     /\ fst (@DrawSinglePixel_trace colorConvBits blendSource
               false GE_FORMAT_8888 3 4 15 0 (mkVec4 10 20 30 255)
               (colorTestID GE_COMP_NEVER 0x1E140A) (flatSurfaces 0 0))
        <> ExitColorTest).
Proof.
  intros Hclaim. destruct Hclaim as [Hpass _]; discriminate.
Qed.

Lemma color_test_never_no_write :
  @DrawSinglePixel colorConvBits blendSource
    false GE_FORMAT_8888 3 4 15 0 (mkVec4 10 20 30 255)
    (colorTestID GE_COMP_NEVER 0x1E140A) (flatSurfaces 0 0)
  = flatSurfaces 0 0.
Proof.
  destruct (@color_test_compare_ops colorConvBits blendSource
              false GE_FORMAT_8888 3 4 15 0 (mkVec4 10 20 30 255)
              (colorTestID GE_COMP_NEVER 0x1E140A) (flatSurfaces 0 0))
    as [Hiff Hsame].
  apply Hsame. apply Hiff. repeat split; reflexivity.
Defined.

(** LESS is one of the ops under which the test always passes. *)
Example color_test_less_passes :
  ColorTestPassed (colorTestID GE_COMP_LESS 0) (mkVec3 10 20 30) = true
  /\ ColorTestPassed (colorTestID GE_COMP_EQUAL 0x1E140A) (mkVec3 10 20 30)
     = true
  /\ ColorTestPassed (colorTestID GE_COMP_EQUAL 0x1E140B) (mkVec3 10 20 30)
     = false.
Proof. repeat split; reflexivity. Qed.


Example stencil_fail_pixel :
  fb (@DrawSinglePixel colorConvBits blendSource
        false GE_FORMAT_8888 3 4 100 0 (mkVec4 10 20 30 255)
        stencilEqualID (flatSurfaces 0x03112233 77)) (3 + 4 * 512)
  = 0x05112233.
Proof. reflexivity. Qed.

(** ** The routine cache *)








Section JitCacheFacts.
Context {CB : Type} `{CodeBlockOps CB} `{CodeGen CB} `{JitPlatform}.

Implicit Types (c : PixelJitCache CB) (id k : PixelFuncID) (g : Config).
Implicit Types (key : list Z) (reqs : list (Config * PixelFuncID)).

Lemma count_compiles_cons_ne id k log :
  fullKey k <> fullKey id ->
  count_compiles id (k :: log) = count_compiles id log.
Proof.
  intros Hne. unfold count_compiles. rewrite filter_cons_False by exact Hne.
  reflexivity.
Qed.


Lemma count_compiles_same_key id id' log :
  fullKey id = fullKey id' -> count_compiles id log = count_compiles id' log.
Proof. intros Heq. unfold count_compiles. rewrite Heq. reflexivity. Qed.

Lemma GetSingle_hit g id c f :
  cache_ c !! fullKey id = Some f -> GetSingle g id c = (f, c).
Proof. intros Hf. unfold GetSingle. rewrite Hf. reflexivity. Qed.

Lemma GetSingle_miss g id c :
  cache_ c !! fullKey id = None ->
  GetSingle g id c
  = GetSingle_compile g id (if resets id c then Clear c else c).
Proof.
  intros Hn. unfold GetSingle, resets. rewrite Hn.
  rewrite bool_decide_eq_true_2 by reflexivity. reflexivity.
Qed.

(** What one compile step does to the two maps and the log. *)
Lemma GetSingle_compile_on g id c :
  jitEnabled g = true ->
  let r := fst (GetSingle_compile g id c) in
  let c' := snd (GetSingle_compile g id c) in
  r = fst (fst (CompileSingle id (block c) (consts c)))
  /\ block c' = snd (fst (CompileSingle id (block c) (consts c)))
  /\ consts c' = snd (CompileSingle id (block c) (consts c))
  /\ cache_ c' = <[fullKey id := r]> (cache_ c)
  /\ addresses_ c' = <[fullKey id := GetCodePointer (block c)]> (addresses_ c)
  /\ compileLog c' = id :: compileLog c.
Proof.
  intros Hon. unfold GetSingle_compile. rewrite Hon.
  destruct (CompileSingle id (block c) (consts c)) as [[func b] ks].
  cbn. repeat split.
Qed.

Lemma GetSingle_compile_off g id c :
  jitEnabled g = false -> GetSingle_compile g id c = (None, c).
Proof. intros Hoff. unfold GetSingle_compile. rewrite Hoff. reflexivity. Qed.

(** A call that does not reset keeps every entry, and compiles no key
    that is cached. *)
Lemma GetSingle_keeps_entry g k c key f :
  resets k c = false ->
  cache_ c !! key = Some f ->
  cache_ (snd (GetSingle g k c)) !! key = Some f
  /\ forall id, fullKey id = key ->
       count_compiles id (compileLog (snd (GetSingle g k c)))
       = count_compiles id (compileLog c).
Proof.
  intros Hnr Hf. destruct (cache_ c !! fullKey k) as [f'|] eqn:Hk.
  - rewrite (GetSingle_hit g k c f' Hk). cbn. auto.
  - rewrite (GetSingle_miss g k c Hk), Hnr.
    assert (Hne : fullKey k <> key) by congruence.
    destruct (jitEnabled g) eqn:Hjit.
    + destruct (GetSingle_compile_on g k c Hjit)
        as (_ & _ & _ & Hc & _ & Hl).
      rewrite Hc, Hl, lookup_insert_ne by exact Hne.
      split; [exact Hf|]. intros id Hid.
      apply count_compiles_cons_ne. congruence.
    + rewrite GetSingle_compile_off by exact Hjit. cbn. auto.
Qed.







(** A call for one key leaves the entry of every other key alone, or
    drops it in a reset, and is not counted for another key. *)
Lemma GetSingle_other_key g k c key :
  fullKey k <> key ->
  cache_ (snd (GetSingle g k c)) !! key
    = (if resets k c then None else cache_ c !! key)
  /\ addresses_ (snd (GetSingle g k c)) !! key
    = (if resets k c then None else addresses_ c !! key).
Proof.
  intros Hne. destruct (cache_ c !! fullKey k) as [f|] eqn:Hk.
  - rewrite (GetSingle_hit g k c f Hk). unfold resets. rewrite Hk.
    rewrite bool_decide_eq_false_2 by discriminate. cbn. auto.
  - rewrite (GetSingle_miss g k c Hk).
    destruct (jitEnabled g) eqn:Hjit.
    + destruct (GetSingle_compile_on g k (if resets k c then Clear c else c)
                  Hjit) as (_ & _ & _ & Hc & Ha & _).
      rewrite Hc, Ha, !lookup_insert_ne by exact Hne.
      destruct (resets k c); cbn; rewrite ?lookup_empty; auto.
    + rewrite GetSingle_compile_off by exact Hjit. cbn.
      destruct (resets k c); cbn; rewrite ?lookup_empty; auto.
Qed.







(** C7: on a miss with fewer than 65536 bytes left, the whole state is
    reset before the compile step runs: the step starts from [Clear c],
    whose code block is the cleared one and whose two maps are empty, so
    after the call every other key is absent from both maps, and a
    compiled routine is registered at the code pointer of the cleared
    block.  A call that does not reset removes nothing: every cached
    entry and every registered address of another key stays. *)
Theorem GetSingle_miss_low_space_resets g id c :
  (cache_ c !! fullKey id = None ->
   GetSpaceLeft (block c) < 65536 ->
   GetSingle g id c = GetSingle_compile g id (Clear c)
   /\ block (Clear c) = CodeBlock_Clear (block c)
   /\ cache_ (Clear c) = ∅
   /\ addresses_ (Clear c) = ∅
   /\ (forall key, key <> fullKey id ->
         cache_ (snd (GetSingle g id c)) !! key = None
         /\ addresses_ (snd (GetSingle g id c)) !! key = None)
   /\ (jitEnabled g = true ->
         fst (GetSingle g id c)
           = fst (fst (CompileSingle id (CodeBlock_Clear (block c))
                         nullConsts))
         /\ cache_ (snd (GetSingle g id c))
            = {[ fullKey id := fst (GetSingle g id c) ]}
         /\ addresses_ (snd (GetSingle g id c))
            = {[ fullKey id := GetCodePointer (CodeBlock_Clear (block c)) ]}))
  /\ (resets id c = false ->
      (forall key f, cache_ c !! key = Some f ->
         cache_ (snd (GetSingle g id c)) !! key = Some f)
      /\ (forall key, key <> fullKey id ->
            addresses_ (snd (GetSingle g id c)) !! key
            = addresses_ c !! key)).
Proof.
  split.
  - intros Hid Hlow.
    assert (Hr : resets id c = true).
    { unfold resets. rewrite Hid, bool_decide_eq_true_2 by reflexivity.
      apply Z.ltb_lt. exact Hlow. }
    assert (Heq : GetSingle g id c = GetSingle_compile g id (Clear c))
      by (rewrite (GetSingle_miss g id c Hid), Hr; reflexivity).
    split; [exact Heq|]. do 3 (split; [reflexivity|]). split.
    + intros key Hne.
      destruct (GetSingle_other_key g id c key (not_eq_sym Hne)) as [Hc Ha].
      rewrite Hr in Hc, Ha. auto.
    + intros Hon. rewrite Heq.
      destruct (GetSingle_compile_on g id (Clear c) Hon)
        as (Hf & _ & _ & Hc & Ha & _).
      rewrite Hc, Ha. repeat split. exact Hf.
  - intros Hnr. split.
    + intros key f Hk. apply (GetSingle_keeps_entry g id c key f Hnr Hk).
    + intros key Hne.
      destruct (GetSingle_other_key g id c key (not_eq_sym Hne)) as [_ Ha].
      rewrite Hnr in Ha. exact Ha.
Qed.

Lemma GenericSingle_valid_format id :
  fbFormat id <> GE_FORMAT_INVALID ->
  GenericSingle id = Some (GenericPixel (clearMode id) (fbFormat id)).
Proof.
  intros Hfmt. unfold GenericSingle.
  destruct (clearMode id), (fbFormat id); try reflexivity; congruence.
Qed.

Lemma GetSingle_off_stays_empty g id c :
  jitEnabled g = false -> cache_ c = ∅ ->
  fst (GetSingle g id c) = None /\ cache_ (snd (GetSingle g id c)) = ∅.
Proof.
  intros Hoff Hc.
  assert (Hid : cache_ c !! fullKey id = None)
    by (rewrite Hc; apply lookup_empty).
  rewrite (GetSingle_miss g id c Hid), GetSingle_compile_off by exact Hoff.
  cbn. split; [reflexivity|]. destruct (resets id c); [reflexivity|exact Hc].
Qed.

Lemma GetSingle_run_off_stays_empty reqs c :
  jit_off_throughout reqs -> cache_ c = ∅ ->
  cache_ (GetSingle_run reqs c) = ∅.
Proof.
  intros Hoff. revert c.
  induction Hoff as [|[g k] reqs Hg Hoff IH]; intros c Hc; [exact Hc|].
  cbn. apply IH. apply (GetSingle_off_stays_empty g k c Hg Hc).
Qed.

(** C8: whenever [GetSingle] returns [nullptr], [GetSingleFunc] returns
    [GenericSingle]'s routine; with code generation unavailable or
    switched off at every call so far and at this one, this is the case
    for every call on a cache that started empty, whatever was requested
    before.  [GenericSingle] returns the instantiation of
    [DrawSinglePixel] for the key's clear-mode flag and format, which is
    not [nullptr] for any of the four formats in either mode, so
    [GetSingleFunc] never returns [nullptr] for them. *)
Theorem GetSingleFunc_falls_back_to_generic g id c :
  (fst (GetSingle g id c) = None ->
   GetSingleFunc g id c = (GenericSingle id, snd (GetSingle g id c)))
  /\ (jitEnabled g = false ->
      forall (alloc : Z -> CB) reqs,
        jit_off_throughout reqs ->
        let c0 := GetSingle_run reqs (PixelJitCache_new alloc) in
        fst (GetSingle g id c0) = None
        /\ fst (GetSingleFunc g id c0) = GenericSingle id)
  /\ (forall cm fmt,
        fmt <> GE_FORMAT_INVALID -> clearMode id = cm -> fbFormat id = fmt ->
        GenericSingle id = Some (GenericPixel cm fmt))
  /\ (fbFormat id <> GE_FORMAT_INVALID ->
      is_Some (fst (GetSingleFunc g id c))).
Proof.
  assert (Hnull : forall c', fst (GetSingle g id c') = None ->
            GetSingleFunc g id c'
            = (GenericSingle id, snd (GetSingle g id c'))).
  { intros c' Hn. unfold GetSingleFunc.
    destruct (GetSingle g id c') as [r c'']. cbn in Hn. subst r. reflexivity. }
  split; [apply Hnull|]. split; [|split].
  - intros Hoff alloc reqs Hoffs c0.
    assert (Hc0 : cache_ c0 = ∅)
      by (apply GetSingle_run_off_stays_empty; [exact Hoffs|reflexivity]).
    destruct (GetSingle_off_stays_empty g id c0 Hoff Hc0) as [Hn _].
    split; [exact Hn|]. rewrite (Hnull c0 Hn). reflexivity.
  - intros cm fmt Hfmt <- <-. apply GenericSingle_valid_format. exact Hfmt.
  - intros Hfmt. unfold GetSingleFunc.
    destruct (GetSingle g id c) as [[r|] c']; cbn; [eauto|].
    rewrite GenericSingle_valid_format by exact Hfmt. eauto.
Qed.

End JitCacheFacts.

(** *** The cache on concrete requests *)



Example GetSingle_twice_routines :
  let c := PixelJitCache_new CodeBlock_alloc in
  let c1 := snd (@GetSingle _ _ (emitAtCursor size512) amd64 jitOn plainID c) in
  let c2 := snd (@GetSingle _ _ (emitAtCursor size512) amd64 jitOn
                   stencilEqualID c1) in
  fst (@GetSingle _ _ (emitAtCursor size512) amd64 jitOn plainID c)
    = Some (JitCode 0)
  /\ fst (@GetSingle _ _ (emitAtCursor size512) amd64 jitOn stencilEqualID c1)
    = Some (JitCode 512)
  /\ fst (@GetSingle _ _ (emitAtCursor size512) amd64 jitOff plainID c2)
    = Some (JitCode 0)
  /\ compileLog c2 = [stencilEqualID; plainID].
Proof. vm_compute. repeat split. Qed.

Lemma GetSingle_resets_nearly_full_cache :
  let c' := snd (@GetSingle _ _ (emitAtCursor size512) amd64 jitOn
                   stencilEqualID nearlyFullCache) in
  fst (@GetSingle _ _ (emitAtCursor size512) amd64 jitOn stencilEqualID
         nearlyFullCache)
    = Some (JitCode 0)
  /\ cache_ c' !! fullKey plainID = None
  /\ addresses_ c' !! fullKey plainID = None
  /\ addresses_ c' = {[ fullKey stencilEqualID := 0 ]}.
Proof.
  intros c'.
  destruct (@GetSingle_miss_low_space_resets _ _ (emitAtCursor size512) amd64
              jitOn stencilEqualID nearlyFullCache) as [Hreset _].
  destruct Hreset as (_ & _ & _ & _ & Hgone & Hnew).
  - vm_compute. reflexivity.
  - vm_compute. reflexivity.
  - destruct Hnew as (Hf & _ & Ha); [reflexivity|].
    assert (Hne : fullKey plainID <> fullKey stencilEqualID) by discriminate.
    destruct (Hgone (fullKey plainID) Hne) as [Hc Hd].
    split; [exact Hf|]. split; [exact Hc|]. split; [exact Hd | exact Ha].
Defined.

Lemma GetSingleFunc_generic_when_jit_off :
  fst (@GetSingleFunc _ _ (emitAtCursor size512) amd64 jitOff stencilEqualID
         (@GetSingle_run _ _ (emitAtCursor size512) amd64 [(jitOff, plainID)]
            (PixelJitCache_new CodeBlock_alloc)))
  = Some (GenericPixel false GE_FORMAT_8888).
Proof.
  destruct (@GetSingleFunc_falls_back_to_generic _ _ (emitAtCursor size512)
              amd64 jitOff stencilEqualID (PixelJitCache_new CodeBlock_alloc))
    as (_ & Hoff & Hgen & _).
  destruct (Hoff eq_refl CodeBlock_alloc [(jitOff, plainID)]) as [_ Hfunc].
  { repeat constructor. }
  rewrite Hfunc. apply Hgen; [discriminate | reflexivity | reflexivity].
Defined.

(** ** Blend state analysis *)

(** C9: [ComputePixelBlendState] is a function of the incoming state and
    of the blend equation and the two blend factors of the configuration,
    and of nothing else.  For MIN, MAX and ABSDIFF it sets no flag,
    whatever the factors: a state whose [usesFactors] is false comes back
    unchanged, so from the initial state every flag is false. *)
Theorem ComputePixelBlendState_reductions :
  (forall st id id',
     AlphaBlendEq id = AlphaBlendEq id' ->
     AlphaBlendSrc id = AlphaBlendSrc id' ->
     AlphaBlendDst id = AlphaBlendDst id' ->
     ComputePixelBlendState st id = ComputePixelBlendState st id')
  /\ (forall st id,
        reductionEq (AlphaBlendEq id) -> usesFactors st = false ->
        ComputePixelBlendState st id = st)
  /\ (forall id,
        reductionEq (AlphaBlendEq id) ->
        let st := ComputePixelBlendState PixelBlendState_init id in
        usesFactors st = false /\ usesDstAlpha st = false
        /\ dstColorAsFactor st = false /\ srcColorAsFactor st = false
        /\ dstFactorIsInverse st = false).
Proof.
  assert (Hred : forall st id,
            reductionEq (AlphaBlendEq id) -> usesFactors st = false ->
            ComputePixelBlendState st id = st).
  { intros st id Heq Hst. unfold ComputePixelBlendState.
    destruct Heq as [-> | [-> | ->]]; rewrite Hst; reflexivity. }
  split; [|split].
  - intros st id id' Heq Hsrc Hdst. unfold ComputePixelBlendState.
    rewrite Heq, Hsrc, Hdst. reflexivity.
  - exact Hred.
  - intros id Heq st. subst st. rewrite Hred by (exact Heq || reflexivity).
    repeat split.
Qed.

Lemma ComputePixelBlendState_MIN_ignores_factors :
  ComputePixelBlendState PixelBlendState_init
    (blendID GE_BLENDMODE_MIN PBF_DSTALPHA PBF_INVSRCALPHA)
  = PixelBlendState_init
  /\ ComputePixelBlendState PixelBlendState_init
       (blendID GE_BLENDMODE_MIN PBF_DSTALPHA PBF_INVSRCALPHA)
     = ComputePixelBlendState PixelBlendState_init
         (blendID GE_BLENDMODE_MIN PBF_OTHERCOLOR PBF_DOUBLEINVDSTALPHA).
Proof.
  destruct ComputePixelBlendState_reductions as (_ & Hred & _).
  split.
  - apply Hred; [left; reflexivity | reflexivity].
  - rewrite !Hred; try reflexivity; left; reflexivity.
Defined.

(** With a factor-weighted equation the same factors set flags. *)
Example ComputePixelBlendState_MUL_AND_ADD :
  ComputePixelBlendState PixelBlendState_init
    (blendID GE_BLENDMODE_MUL_AND_ADD PBF_DSTALPHA PBF_INVSRCALPHA)
  = {| usesFactors := true; usesDstAlpha := true; dstColorAsFactor := true;
       srcColorAsFactor := true; dstFactorIsInverse := false |}.
Proof. reflexivity. Qed.

(** C10: every state [ComputePixelBlendState] produces from the initial
    state has [dstColorAsFactor] set whenever [usesDstAlpha] is set; more
    generally the implication is preserved from the incoming state to the
    outgoing one. *)
Theorem ComputePixelBlendState_dstAlpha_needs_dstColor :
  (forall id,
     let st := ComputePixelBlendState PixelBlendState_init id in
     usesDstAlpha st = true -> dstColorAsFactor st = true)
  /\ (forall st id,
        (usesDstAlpha st = true -> dstColorAsFactor st = true) ->
        usesDstAlpha (ComputePixelBlendState st id) = true ->
        dstColorAsFactor (ComputePixelBlendState st id) = true).
Proof.
  assert (Hpres : forall st id,
            (usesDstAlpha st = true -> dstColorAsFactor st = true) ->
            usesDstAlpha (ComputePixelBlendState st id) = true ->
            dstColorAsFactor (ComputePixelBlendState st id) = true).
  { intros st id Hinv. unfold ComputePixelBlendState.
    match goal with
    | |- context [if usesFactors ?s then _ else _] =>
        destruct (usesFactors s) eqn:Huses
    end.
    - cbn [usesDstAlpha dstColorAsFactor set_dstColorAsFactor].
      intros ->. apply orb_true_r.
    - destruct (AlphaBlendEq id); cbn in Huses; try discriminate; exact Hinv. }
  split; [|exact Hpres].
  intros id st. apply Hpres. discriminate.
Qed.

Lemma ComputePixelBlendState_dstAlpha_flags :
  dstColorAsFactor
    (ComputePixelBlendState PixelBlendState_init
       (blendID GE_BLENDMODE_MUL_AND_ADD PBF_DSTALPHA PBF_FIX)) = true.
Proof.
  destruct ComputePixelBlendState_dstAlpha_needs_dstColor as [Hinit _].
  apply Hinit. reflexivity.
Defined.

(** * Further properties of the code *)

(** ** Logic ops *)

Ltac cmp_cases :=
  repeat match goal with
         | |- context [Z.ltb ?a ?b] => destruct (Z.ltb_spec a b); try lia
         | |- context [Z.leb ?a ?b] => destruct (Z.leb_spec a b); try lia
         end.

Ltac bit_cases :=
  repeat match goal with
         | |- context [Z.testbit ?a ?i] => destruct (Z.testbit a i)
         end.

Ltac mask_bits :=
  unfold not32, u32, u16, u8;
  change 0xFFFFFFFF with (Z.ones 32);
  change 0x00FFFFFF with (Z.ones 24);
  change 0xFF000000 with (Z.shiftl (Z.ones 8) 24);
  repeat first
    [ rewrite Z.land_spec | rewrite Z.lor_spec | rewrite Z.lxor_spec
    | rewrite Z.lnot_spec by lia
    | rewrite Z.shiftl_spec by lia
    | rewrite Z.testbit_ones by lia ].

(** X1: every logic op leaves the alpha/stencil byte of the new colour as
    it is. *)
Theorem ApplyLogicOp_preserves_alpha op old_color new_color :
  Z.land (ApplyLogicOp op old_color new_color) 0xFF000000
  = Z.land new_color 0xFF000000.
Proof.
  bits_by_index n.
  destruct op; unfold ApplyLogicOp; mask_bits; cmp_cases; bit_cases;
    reflexivity.
Qed.

(** X2: on each of the 24 colour bits, a logic op computes the boolean
    function it is named after, of the new colour's bit and the old
    colour's bit. *)
Theorem ApplyLogicOp_colour_bits op old_color new_color i :
  0 <= i < 24 ->
  Z.testbit (ApplyLogicOp op old_color new_color) i
  = logicOpBit op (Z.testbit new_color i) (Z.testbit old_color i).
Proof.
  intros Hi.
  destruct op; unfold ApplyLogicOp, logicOpBit; mask_bits; cmp_cases;
    bit_cases; reflexivity.
Qed.

Lemma ApplyLogicOp_xor_bit3 :
  Z.testbit (ApplyLogicOp GE_LOGIC_XOR 0x0000000F 0xFF00000A) 3 = false
  /\ Z.testbit (ApplyLogicOp GE_LOGIC_XOR 0x0000000F 0xFF00000A) 2 = true.
Proof.
  split.
  - rewrite (ApplyLogicOp_colour_bits GE_LOGIC_XOR 0x0000000F 0xFF00000A 3)
      by lia.
    reflexivity.
  - rewrite (ApplyLogicOp_colour_bits GE_LOGIC_XOR 0x0000000F 0xFF00000A 2)
      by lia.
    reflexivity.
Defined.

(** ** Stencil accessors *)

Lemma land_pow2 a k :
  0 <= k -> Z.land a (2 ^ k) = if Z.testbit a k then 2 ^ k else 0.
Proof.
  intros Hk. bits_by_index n. rewrite Z.land_spec, Z.pow2_bits_eqb by lia.
  destruct (Z.eqb_spec k n) as [->|Hne].
  - destruct (Z.testbit a n); [rewrite Z.pow2_bits_true by lia|
                               rewrite Z.bits_0]; reflexivity.
  - rewrite andb_false_r.
    destruct (Z.testbit a k);
      [rewrite Z.pow2_bits_false by lia | rewrite Z.bits_0]; reflexivity.
Qed.

Lemma GetPixelStencil_SetPixelStencil_5551
    `{ColorConv} stride mask x y v (f : Z -> Z) :
  Z.land mask 0x8000 = 0 ->
  GetPixelStencil GE_FORMAT_5551 stride x y
    (SetPixelStencil GE_FORMAT_5551 stride mask x y v f)
  = if Z.land v 0x80 =? 0 then 0 else 0xFF.
Proof.
  intros Hm. unfold GetPixelStencil, SetPixelStencil, Set16, Get16.
  rewrite Hm. cbn [Z.eqb]. rewrite fn_insert_same.
  change 0x8000 with (2 ^ 15). change 0x80 with (2 ^ 7).
  rewrite !land_pow2 by lia.
  assert (Hbit : forall a,
            Z.testbit
              (u16 (u16 (Z.lor (u16 (Z.land a (Z.lnot (2 ^ 15))))
                           (Z.shiftl (if Z.testbit v 7 then 2 ^ 7 else 0) 8))))
              15
            = Z.testbit v 7).
  { intros a. unfold u16. change 0xFFFF with (Z.ones 16).
    rewrite !Z.land_spec, Z.lor_spec, !Z.land_spec, Z.lnot_spec by lia.
    rewrite Z.shiftl_spec by lia. rewrite Z.pow2_bits_true by lia.
    destruct (Z.testbit v 7); destruct (Z.testbit a 15); reflexivity. }
  rewrite Hbit. destruct (Z.testbit v 7); reflexivity.
Qed.

Lemma GetPixelStencil_SetPixelStencil_4444
    `{ColorConv} stride mask x y v (f : Z -> Z) :
  Z.land mask 0xF000 = 0 ->
  GetPixelStencil GE_FORMAT_4444 stride x y
    (SetPixelStencil GE_FORMAT_4444 stride mask x y v f)
  = u8 (Convert4To8 (Z.land (Z.shiftr v 4) 0xF)).
Proof.
  intros Hm. unfold GetPixelStencil, SetPixelStencil, Set16, Get16.
  rewrite fn_insert_same. f_equal. f_equal.
  assert (Hmask : forall n, 12 <= n < 16 -> Z.testbit mask n = false).
  { intros n Hn.
    assert (Hb : Z.testbit (Z.land mask 0xF000) n = false)
      by (rewrite Hm; apply Z.bits_0).
    change 0xF000 with (Z.shiftl (Z.ones 4) 12) in Hb.
    rewrite Z.land_spec, Z.shiftl_spec, Z.testbit_ones in Hb by lia.
    destruct (Z.leb_spec 0 (n - 12)); [|lia].
    destruct (Z.ltb_spec (n - 12) 4); [|lia].
    rewrite andb_true_r in Hb. exact Hb. }
  unfold u16, u8. change 0xFFFF with (Z.ones 16).
  change 0x0FFF with (Z.ones 12). change 0xFF with (Z.ones 8).
  change 0xF with (Z.ones 4).
  bits_by_index n.
  repeat first
    [ rewrite Z.land_spec | rewrite Z.lor_spec
    | rewrite Z.lnot_spec by lia
    | rewrite Z.shiftl_spec by lia
    | rewrite Z.shiftr_spec by lia
    | rewrite Z.testbit_ones by lia ].
  replace (n + 12 - 8) with (n + 4) by lia.
  destruct (Z.ltb_spec n 4).
  - rewrite (Hmask (n + 12)) by lia. cmp_cases. bit_cases; reflexivity.
  - cmp_cases; bit_cases; reflexivity.
Qed.

(** X3: writing a stencil value and reading it back.  With the stencil
    bits outside the write mask, an 8888 pixel gives the value back, a 5551
    pixel gives 0xFF or 0 according to the value's top bit, a 4444 pixel
    gives the widened top nibble; a 565 pixel has no stencil: the write
    changes nothing and the read is 0.  With the stencil bit inside the
    write mask a 5551 pixel is not written at all. *)
Theorem stencil_write_read_back
    `{ColorConv} stride mask x y v (f : Z -> Z) :
  (Z.land mask 0xFF000000 = 0 ->
   GetPixelStencil GE_FORMAT_8888 stride x y
     (SetPixelStencil GE_FORMAT_8888 stride mask x y v f) = u8 v)
  /\ (Z.land mask 0x8000 = 0 ->
      GetPixelStencil GE_FORMAT_5551 stride x y
        (SetPixelStencil GE_FORMAT_5551 stride mask x y v f)
      = if Z.land v 0x80 =? 0 then 0 else 0xFF)
  /\ (Z.land mask 0xF000 = 0 ->
      GetPixelStencil GE_FORMAT_4444 stride x y
        (SetPixelStencil GE_FORMAT_4444 stride mask x y v f)
      = u8 (Convert4To8 (Z.land (Z.shiftr v 4) 0xF)))
  /\ SetPixelStencil GE_FORMAT_565 stride mask x y v f = f
  /\ GetPixelStencil GE_FORMAT_565 stride x y f = 0
  /\ (Z.land mask 0x8000 <> 0 ->
      SetPixelStencil GE_FORMAT_5551 stride mask x y v f = f).
Proof.
  split; [apply GetPixelStencil_SetPixelStencil_8888|].
  split; [apply GetPixelStencil_SetPixelStencil_5551|].
  split; [apply GetPixelStencil_SetPixelStencil_4444|].
  split; [reflexivity|]. split; [reflexivity|].
  intros Hm. unfold SetPixelStencil.
  destruct (Z.eqb_spec (Z.land mask 0x8000) 0); [contradiction|reflexivity].
Qed.

Lemma stencil_write_read_back_samples :
  @GetPixelStencil colorConvBits GE_FORMAT_8888 512 3 4
    (SetPixelStencil GE_FORMAT_8888 512 0 3 4 0x5A (fun _ => 0x11223344))
  = 0x5A
  /\ @GetPixelStencil colorConvBits GE_FORMAT_5551 512 3 4
       (SetPixelStencil GE_FORMAT_5551 512 0 3 4 0x5A (fun _ => 0x9234))
     = 0
  /\ @GetPixelStencil colorConvBits GE_FORMAT_4444 512 3 4
       (SetPixelStencil GE_FORMAT_4444 512 0 3 4 0x5A (fun _ => 0x9234))
     = 0x55.
Proof.
  destruct (@stencil_write_read_back colorConvBits 512 0 3 4 0x5A
              (fun _ => 0x11223344)) as (H8 & _).
  destruct (@stencil_write_read_back colorConvBits 512 0 3 4 0x5A
              (fun _ => 0x9234)) as (_ & H5 & H4 & _).
  split; [apply H8; reflexivity|].
  split; [apply H5; reflexivity | apply H4; reflexivity].
Defined.

(** ** The generic pipeline as a whole *)

Lemma Set16_other (f : Z -> Z) x y stride v i :
  i <> x + y * stride -> Set16 f x y stride v i = f i.
Proof. intros Hi. unfold Set16. apply fn_lookup_insert_ne. congruence. Qed.

Lemma Set32_other (f : Z -> Z) x y stride v i :
  i <> x + y * stride -> Set32 f x y stride v i = f i.
Proof. intros Hi. unfold Set32. apply fn_lookup_insert_ne. congruence. Qed.

Lemma SetPixelColor_other `{ColorConv}
    fmt stride x y v old mask (f : Z -> Z) i :
  i <> x + y * stride ->
  SetPixelColor fmt stride x y v old mask f i = f i.
Proof.
  intros Hi. unfold SetPixelColor, SetPixelColor16.
  destruct fmt; try reflexivity;
    first [apply Set16_other | apply Set32_other]; exact Hi.
Qed.

Section PipelineMore.
Context `{ColorConv} `{Blender}.

Ltac case_stages :=
  repeat match goal with
         | |- context [if ?b then _ else _] => destruct b eqn:?
         end; cbn [fst snd fb depthbuf].

Lemma write_fb cm fmt x y z prim id mask stencil s i :
  i <> x + y * framebufStride (cached id) ->
  fb (DrawSinglePixel_write cm fmt x y z prim id mask stencil s) i = fb s i.
Proof.
  intros Hi. unfold DrawSinglePixel_write. cbn [fb].
  apply SetPixelColor_other. exact Hi.
Qed.

Lemma write_depthbuf cm fmt x y z prim id mask stencil s :
  depthbuf (DrawSinglePixel_write cm fmt x y z prim id mask stencil s)
  = if depthWrite id && negb cm
    then SetPixelDepth x y (depthbufStride (cached id)) (u16 z) (depthbuf s)
    else depthbuf s.
Proof. reflexivity. Qed.

Lemma DrawSinglePixel_fb_other cm fmt x y z fog color id s i :
  i <> x + y * framebufStride (cached id) ->
  fb (DrawSinglePixel cm fmt x y z fog color id s) i = fb s i.
Proof.
  intros Hi. unfold DrawSinglePixel, DrawSinglePixel_trace.
  case_stages; rewrite ?write_fb by exact Hi; cbn [fb];
    rewrite ?SetPixelStencil_other by exact Hi; reflexivity.
Qed.

Lemma DrawSinglePixel_depthbuf_other cm fmt x y z fog color id s j :
  j <> x + y * depthbufStride (cached id) ->
  depthbuf (DrawSinglePixel cm fmt x y z fog color id s) j = depthbuf s j.
Proof.
  intros Hj. unfold DrawSinglePixel, DrawSinglePixel_trace.
  case_stages; rewrite ?write_depthbuf; cbn [depthbuf];
    case_stages; unfold SetPixelDepth;
    rewrite ?Set16_other by exact Hj; reflexivity.
Qed.

(** X4: one call of [DrawSinglePixel] changes no frame buffer cell other
    than the pixel's, and no depth buffer cell other than the pixel's,
    whatever the mode, the format and the configuration. *)
Theorem DrawSinglePixel_touches_one_pixel cm fmt x y z fog color id s :
  (forall i, i <> x + y * framebufStride (cached id) ->
     fb (DrawSinglePixel cm fmt x y z fog color id s) i = fb s i)
  /\ (forall j, j <> x + y * depthbufStride (cached id) ->
        depthbuf (DrawSinglePixel cm fmt x y z fog color id s) j
        = depthbuf s j).
Proof.
  split; intros k Hk;
    [apply DrawSinglePixel_fb_other | apply DrawSinglePixel_depthbuf_other];
    exact Hk.
Qed.

(** X5: a pixel that does not pass every stage leaves the depth buffer
    and the colour bits of every frame buffer cell as they were; only
    stencil bits can change. *)
Theorem rejected_pixel_keeps_depth_and_colour cm fmt x y z fog color id s :
  fst (DrawSinglePixel_trace cm fmt x y z fog color id s) <> ExitWritten ->
  depthbuf (DrawSinglePixel cm fmt x y z fog color id s) = depthbuf s
  /\ (forall i,
        Z.land (fb (DrawSinglePixel cm fmt x y z fog color id s) i)
               (colorBits fmt)
        = Z.land (fb s i) (colorBits fmt)).
Proof.
  unfold DrawSinglePixel, DrawSinglePixel_trace.
  case_stages; intros Hexit; try (exfalso; apply Hexit; reflexivity);
    (split; [reflexivity|]); intros i;
    first [reflexivity | apply SetPixelStencil_colorBits].
Qed.

(** X6: outside clear mode, a pixel that reaches the depth test and fails
    it is dropped without any write when the stencil test is off; when the
    stencil test is on and passed, the depth-fail op is applied to the
    stencil and written back, and the depth buffer stays as it was. *)
Theorem depth_test_failure fmt x y z fog color id s :
  let prim := Vec4_Clamp 0 255 color in
  let stride := framebufStride (cached id) in
  let mask := if applyColorWriteMask id then colorWriteMask (cached id)
              else 0 in
  let old := GetPixelStencil fmt stride x y (fb s) in
  let repl := if hasStencilTestMask id then stencilRef (cached id)
              else stencilTestRef id in
  depthRangeFails id z = false ->
  alphaTestFails false id prim = false ->
  colorTestFails false id (applyFogStage false fog id prim) = false ->
  depthTestFails id x y z (depthbuf s) = true ->
  (stencilTest id = false ->
   DrawSinglePixel_trace false fmt x y z fog color id s = (ExitDepthTest, s))
  /\ (stencilTest id = true -> StencilTestPassed id old = true ->
      DrawSinglePixel_trace false fmt x y z fog color id s
      = (ExitStencilZFail,
         {| fb := SetPixelStencil fmt stride mask x y
                    (ApplyStencilOp fmt repl (ZFail id) old) (fb s);
            depthbuf := depthbuf s |})).
Proof.
  intros prim stride mask old repl Hr Ha Hc Hd.
  unfold DrawSinglePixel_trace. fold prim. rewrite Hr, Ha, Hc.
  split.
  - intros Hs. rewrite Hs, Hd. reflexivity.
  - intros Hs Hp. rewrite Hs. fold stride old. rewrite Hp, Hd. reflexivity.
Qed.

(** X7: the depth buffer is written exactly when the pixel passes every
    stage and, in clear mode, depth is cleared or, outside clear mode,
    depth writes are on; what is written is z truncated to 16 bits, at the
    pixel's cell. *)
Theorem depth_written_when_passed cm fmt x y z fog color id s :
  depthbuf (DrawSinglePixel cm fmt x y z fog color id s)
  = match fst (DrawSinglePixel_trace cm fmt x y z fog color id s) with
    | ExitWritten =>
        if (if cm then DepthClear id else depthWrite id)
        then SetPixelDepth x y (depthbufStride (cached id)) (u16 z)
               (depthbuf s)
        else depthbuf s
    | _ => depthbuf s
    end.
Proof.
  unfold DrawSinglePixel, DrawSinglePixel_trace.
  destruct cm; case_stages; rewrite ?write_depthbuf; cbn [depthbuf negb];
    rewrite ?andb_false_r, ?andb_true_r; case_stages;
    try reflexivity; try congruence.
Qed.

(** X8: in clear mode the alpha, colour, stencil and depth tests are all
    bypassed: the pixel is written unless the depth-range stage rejects
    it. *)
Theorem clear_mode_bypasses_tests fmt x y z fog color id s :
  fst (DrawSinglePixel_trace true fmt x y z fog color id s)
  = if depthRangeFails id z then ExitDepthRange else ExitWritten.
Proof.
  unfold DrawSinglePixel_trace, alphaTestFails, colorTestFails.
  cbn [negb]. rewrite !andb_false_r. cbn [andb].
  destruct (depthRangeFails id z); reflexivity.
Qed.

Lemma trace_written_clear fmt x y z fog color id s :
  depthRangeFails id z = false ->
  exists d,
    DrawSinglePixel true fmt x y z fog color id s
    = DrawSinglePixel_write true fmt x y z (Vec4_Clamp 0 255 color) id
        (if applyColorWriteMask id then colorWriteMask (cached id) else 0)
        (u8 (a4 (Vec4_Clamp 0 255 color)))
        {| fb := fb s; depthbuf := d |}.
Proof.
  intros Hr. unfold DrawSinglePixel, DrawSinglePixel_trace.
  unfold alphaTestFails, colorTestFails, applyFogStage.
  cbn [negb]. rewrite Hr, !andb_false_r. cbn [andb snd].
  destruct (DepthClear id); [eexists; reflexivity|].
  exists (depthbuf s). destruct s; reflexivity.
Qed.

Lemma trace_written_normal fmt x y z fog color id s :
  fst (DrawSinglePixel_trace false fmt x y z fog color id s) = ExitWritten ->
  let old := GetPixelStencil fmt (framebufStride (cached id)) x y (fb s) in
  let repl := if hasStencilTestMask id then stencilRef (cached id)
              else stencilTestRef id in
  DrawSinglePixel false fmt x y z fog color id s
  = DrawSinglePixel_write false fmt x y z
      (applyFogStage false fog id (Vec4_Clamp 0 255 color)) id
      (if applyColorWriteMask id then colorWriteMask (cached id) else 0)
      (if stencilTest id then ApplyStencilOp fmt repl (ZPass id) old else old)
      s.
Proof.
  unfold DrawSinglePixel, DrawSinglePixel_trace.
  case_stages; intros Hexit; try discriminate; reflexivity.
Qed.

End PipelineMore.

(** ** What reaches the frame buffer *)

Lemma testbit_above m k n :
  0 <= m < 2 ^ k -> 0 <= k <= n -> Z.testbit m n = false.
Proof.
  intros Hm Hk. destruct (Z.eq_dec m 0) as [->|Hne]; [apply Z.bits_0|].
  apply Z.bits_above_log2; [lia|].
  assert (Z.log2 m < k) by (apply Z.log2_lt_pow2; lia). lia.
Qed.

Lemma clamp_u8_range v : 0 <= clamp_u8 v <= 255.
Proof.
  unfold clamp_u8, clamp.
  destruct (Z.ltb_spec v 0); [lia|]. destruct (Z.gtb_spec v 255); lia.
Qed.

Lemma u8_range v : 0 <= u8 v <= 255.
Proof.
  unfold u8. change (Z.land v 0xFF) with (Z.land v (Z.ones 8)).
  rewrite Z.land_ones by lia. change (2 ^ 8) with 256.
  pose proof (Z.mod_pos_bound v 256). lia.
Qed.

Lemma byte_high_bits c n : 0 <= c <= 255 -> 8 <= n -> Z.testbit c n = false.
Proof.
  intros Hc Hn. apply (testbit_above c 8); [change (2 ^ 8) with 256|]; lia.
Qed.

(** A bit of a masked 32-bit store: the old bit under the mask, the new
    bit elsewhere. *)
Lemma masked_store_bit v old m i :
  0 <= i ->
  Z.testbit (u32 (Z.lor (Z.land v (not32 m)) (Z.land old m))) i
  = (i <? 32) && (if Z.testbit m i then Z.testbit old i else Z.testbit v i).
Proof.
  intros Hi. mask_bits. cmp_cases; bit_cases; reflexivity.
Qed.

Lemma stencil_store_bit v old m i :
  0 <= i ->
  let wm := u32 (Z.lor m 0x00FFFFFF) in
  Z.testbit
    (u32 (u32 (Z.lor (u32 (Z.land old wm))
                 (Z.land (u32 (Z.shiftl (u32 v) 24)) (not32 wm))))) i
  = (i <? 32)
    && (if Z.testbit m i || (i <? 24) then Z.testbit old i
        else Z.testbit v (i - 24)).
Proof.
  intros Hi wm. subst wm. mask_bits. cmp_cases; bit_cases; reflexivity.
Qed.

Lemma Vec3_ToRGB_high_bits c n : 24 <= n -> Z.testbit (Vec3_ToRGB c) n = false.
Proof.
  intros Hn. unfold Vec3_ToRGB.
  rewrite !Z.lor_spec, !Z.shiftl_spec by lia.
  rewrite !byte_high_bits by (apply clamp_u8_range || lia). reflexivity.
Qed.

Lemma ApplyLogicOp_high_byte op old_color new_color n :
  24 <= n < 32 ->
  Z.testbit (ApplyLogicOp op old_color new_color) n = Z.testbit new_color n.
Proof.
  intros Hn.
  destruct op; unfold ApplyLogicOp; mask_bits; cmp_cases; bit_cases;
    reflexivity.
Qed.

Lemma ApplyStencilOp_range fmt repl op old :
  0 <= repl <= 255 -> 0 <= old <= 255 ->
  0 <= ApplyStencilOp fmt repl op old <= 255.
Proof.
  intros Hr Ho. destruct op; try (cbn [ApplyStencilOp]; lia).
  - apply u8_range.
  - pose proof (ApplyStencilOp_INCR_range fmt repl old Ho). lia.
  - pose proof (ApplyStencilOp_DECR_range fmt repl old Ho). lia.
Qed.

(** The stencil byte read from a cell whose bits 24..31 are those of
    [st]. *)
Lemma high_byte_read cell st :
  0 <= st <= 255 ->
  (forall n, 24 <= n < 32 -> Z.testbit cell n = Z.testbit st (n - 24)) ->
  u8 (Z.shiftr cell 24) = st.
Proof.
  intros Hst Hbits. unfold u8. change 0xFF with (Z.ones 8).
  bits_by_index n. rewrite Z.land_spec, Z.shiftr_spec by lia.
  rewrite Z.testbit_ones by lia.
  destruct (Z.leb_spec 0 n); [|lia]. destruct (Z.ltb_spec n 8).
  - rewrite Hbits by lia. replace (n + 24 - 24) with n by lia.
    apply andb_true_r.
  - rewrite (byte_high_bits st n) by lia. apply andb_false_r.
Qed.

Section FrameBufferFacts.
Context `{ColorConv} `{Blender}.

Ltac case_stages :=
  repeat match goal with
         | |- context [if ?b then _ else _] => destruct b eqn:?
         end; cbn [fst snd fb depthbuf].

(** The cell [DrawSinglePixel_write] stores in an 8888 frame buffer. *)
Lemma write_8888_cell cm x y z prim id mask stencil s :
  exists v,
    fb (DrawSinglePixel_write cm GE_FORMAT_8888 x y z prim id mask stencil s)
       (x + y * framebufStride (cached id))
    = u32 (Z.lor (Z.land v (not32 mask))
                 (Z.land (fb s (x + y * framebufStride (cached id))) mask))
    /\ (cm = false ->
        forall n, 24 <= n < 32 ->
          Z.testbit v n = Z.testbit (u32 (Z.shiftl stencil 24)) n)
    /\ (cm = true -> ColorClear id = false ->
        forall n, 0 <= n < 24 ->
          Z.testbit v n
          = Z.testbit (fb s (x + y * framebufStride (cached id))) n)
    /\ (cm = true -> StencilClear id = false ->
        forall n, 24 <= n < 32 ->
          Z.testbit v n
          = Z.testbit (fb s (x + y * framebufStride (cached id))) n)
    /\ (cm = true -> ColorClear id = true -> StencilClear id = true ->
        dithering id = false ->
        v = u32 (Z.lor (Vec3_ToRGB (Vec4_rgb prim)) (Z.shiftl stencil 24))).
Proof.
  unfold DrawSinglePixel_write, SetPixelColor, GetPixelColor, Set32, Get32.
  cbn [fb]. rewrite fn_insert_same.
  eexists. split; [reflexivity|].
  set (old := fb s (x + y * framebufStride (cached id))).
  split; [|split; [|split]].
  - intros -> n Hn. cbn [negb andb]. rewrite !andb_true_r.
    destruct (applyLogicOp id); rewrite ?ApplyLogicOp_high_byte by exact Hn;
      destruct (alphaBlend id); unfold u32;
      rewrite !Z.land_spec, !Z.lor_spec, !Vec3_ToRGB_high_bits by lia;
      reflexivity.
  - intros -> Hcc n Hn. cbn [negb andb]. rewrite !andb_false_r, Hcc.
    cbn [negb].
    change 0xFF000000 with (Z.shiftl (Z.ones 8) 24).
    change 0x00FFFFFF with (Z.ones 24).
    destruct (StencilClear id); cbn [negb];
      repeat first
        [ rewrite Z.land_spec | rewrite Z.lor_spec
        | rewrite Z.shiftl_spec by lia | rewrite Z.testbit_ones by lia ];
      cmp_cases; rewrite ?andb_false_r, ?andb_true_r, ?orb_false_r;
      cbn [andb orb]; rewrite ?andb_true_r, ?orb_false_r; reflexivity.
  - intros -> Hsc n Hn. cbn [negb andb]. rewrite !andb_false_r, Hsc.
    cbn [negb].
    change 0xFF000000 with (Z.shiftl (Z.ones 8) 24).
    change 0x00FFFFFF with (Z.ones 24).
    repeat first
      [ rewrite Z.land_spec | rewrite Z.lor_spec
      | rewrite Z.shiftl_spec by lia | rewrite Z.testbit_ones by lia ].
    cmp_cases. rewrite ?andb_false_r, ?andb_true_r. reflexivity.
  - intros -> Hcc Hsc Hd. cbn [negb andb]. rewrite !andb_false_r, Hcc, Hsc, Hd.
    reflexivity.
Qed.

Lemma land_mask_eq a b m :
  (forall n, 0 <= n -> Z.testbit m n = true -> Z.testbit a n = Z.testbit b n) ->
  Z.land a m = Z.land b m.
Proof.
  intros Hbits. bits_by_index n. rewrite !Z.land_spec.
  destruct (Z.testbit m n) eqn:Hm; [|rewrite !andb_false_r; reflexivity].
  rewrite (Hbits n) by assumption. reflexivity.
Qed.

Lemma SetPixelStencil_8888_cell stride mask x y v (f : Z -> Z) :
  SetPixelStencil GE_FORMAT_8888 stride mask x y v f (x + y * stride)
  = (let wm := u32 (Z.lor mask 0x00FFFFFF) in
     u32 (u32 (Z.lor (u32 (Z.land (f (x + y * stride)) wm))
                 (Z.land (u32 (Z.shiftl (u32 v) 24)) (not32 wm))))).
Proof.
  unfold SetPixelStencil, Set32, Get32. rewrite fn_insert_same. reflexivity.
Qed.

(** X9: in an 8888 frame buffer, the bits of the pixel that lie under the
    colour write mask keep their value whatever the pipeline does with the
    pixel: reject it, write the stencil back, or write the colour. *)
Theorem write_mask_protects_bits cm x y z fog color id s :
  let m := if applyColorWriteMask id then colorWriteMask (cached id) else 0 in
  0 <= m < 2 ^ 32 ->
  forall i,
    Z.land (fb (DrawSinglePixel cm GE_FORMAT_8888 x y z fog color id s) i) m
    = Z.land (fb s i) m.
Proof.
  intros m Hm i.
  destruct (Z.eq_dec i (x + y * framebufStride (cached id))) as [->|Hne];
    [|rewrite DrawSinglePixel_fb_other by exact Hne; reflexivity].
  assert (Hlow : forall n, Z.testbit m n = true -> n < 32).
  { intros n Hn. destruct (Z.lt_ge_cases n 32) as [|Hge]; [assumption|].
    rewrite (testbit_above m 32 n) in Hn by lia. discriminate. }
  apply land_mask_eq. intros n Hn Hmn. specialize (Hlow n Hmn).
  unfold DrawSinglePixel, DrawSinglePixel_trace. fold m.
  case_stages; try reflexivity;
    try (rewrite SetPixelStencil_8888_cell; cbn zeta;
         rewrite stencil_store_bit by exact Hn; rewrite Hmn;
         destruct (Z.ltb_spec n 32); [reflexivity | lia]);
    match goal with
    | |- context [DrawSinglePixel_write ?c _ ?x ?y ?z ?p ?i ?k ?st ?s0] =>
        destruct (write_8888_cell c x y z p i k st s0) as (v & Hcell & _)
    end;
    rewrite Hcell; cbn [fb]; rewrite masked_store_bit by exact Hn;
    rewrite Hmn; (destruct (Z.ltb_spec n 32); [reflexivity | lia]).
Qed.

(** X10: clearing an 8888 pixel.  Unless the clear targets colour, the
    colour bits of the pixel keep their value; unless it targets stencil,
    the stencil byte keeps its value; a clear of both with no write mask
    and no dithering stores the clamped colour with the clamped alpha as
    the stencil byte. *)
Theorem clear_mode_channel_gating x y z fog color id s :
  let cell := x + y * framebufStride (cached id) in
  let prim := Vec4_Clamp 0 255 color in
  let s' := DrawSinglePixel true GE_FORMAT_8888 x y z fog color id s in
  depthRangeFails id z = false ->
  (ColorClear id = false ->
   Z.land (fb s' cell) 0x00FFFFFF = Z.land (fb s cell) 0x00FFFFFF)
  /\ (StencilClear id = false ->
      Z.land (fb s' cell) 0xFF000000 = Z.land (fb s cell) 0xFF000000)
  /\ (ColorClear id = true -> StencilClear id = true ->
      applyColorWriteMask id = false -> dithering id = false ->
      fb s' cell
      = Z.lor (Vec3_ToRGB (Vec4_rgb prim)) (Z.shiftl (a4 prim) 24)).
Proof.
  intros cell prim s' Hr. subst s'.
  destruct (trace_written_clear GE_FORMAT_8888 x y z fog color id s Hr)
    as (d & ->).
  fold prim.
  match goal with
  | |- context [DrawSinglePixel_write ?c _ ?x ?y ?z ?p ?i ?k ?st ?s0] =>
      destruct (write_8888_cell c x y z p i k st s0)
        as (v & Hcell & _ & Hcol & Hst & Hall)
  end.
  fold cell in Hcell, Hcol, Hst. cbn [fb] in Hcell, Hcol, Hst. rewrite Hcell.
  split; [|split].
  - intros Hcc. change 0x00FFFFFF with (Z.ones 24).
    apply land_mask_eq. intros n Hn Hmn.
    rewrite Z.testbit_ones in Hmn by lia.
    apply andb_true_iff in Hmn as [_ Hlt]. apply Z.ltb_lt in Hlt.
    rewrite masked_store_bit by exact Hn.
    rewrite (Hcol eq_refl Hcc n) by lia.
    destruct (Z.ltb_spec n 32); [|lia]. destruct (Z.testbit _ n); reflexivity.
  - intros Hsc. change 0xFF000000 with (Z.shiftl (Z.ones 8) 24).
    apply land_mask_eq. intros n Hn Hmn.
    rewrite Z.shiftl_spec, Z.testbit_ones in Hmn by lia.
    apply andb_true_iff in Hmn as [Hge Hlt].
    apply Z.leb_le in Hge. apply Z.ltb_lt in Hlt.
    rewrite masked_store_bit by exact Hn.
    rewrite (Hst eq_refl Hsc n) by lia.
    destruct (Z.ltb_spec n 32); [|lia]. destruct (Z.testbit _ n); reflexivity.
  - intros Hcc Hsc Hw Hd. rewrite (Hall eq_refl Hcc Hsc Hd), Hw.
    pose proof (clamp_u8_range (a4 color)) as Ha.
    change (clamp_u8 (a4 color)) with (a4 prim) in Ha.
    rewrite (u8_small (a4 prim)) by exact Ha.
    bits_by_index n. rewrite masked_store_bit by assumption.
    rewrite Z.bits_0. unfold u32. change 0xFFFFFFFF with (Z.ones 32).
    rewrite Z.land_spec, Z.testbit_ones by lia.
    destruct (Z.leb_spec 0 n); [|lia]. destruct (Z.ltb_spec n 32).
    + rewrite !andb_true_r. reflexivity.
    + rewrite !andb_false_r. rewrite Z.lor_spec, Z.shiftl_spec by lia.
      rewrite Vec3_ToRGB_high_bits, (byte_high_bits (a4 prim)) by lia.
      reflexivity.
Qed.

(** X11: outside clear mode, the stencil byte of a written 8888 pixel is
    the stencil of the old pixel, or the depth-pass op applied to it when
    the stencil test is on: the alpha of the incoming colour never reaches
    the frame buffer.  The stencil byte must lie outside the write mask
    and the replacement value must be a byte. *)
Theorem written_stencil_byte x y z fog color id s :
  let stride := framebufStride (cached id) in
  let m := if applyColorWriteMask id then colorWriteMask (cached id) else 0 in
  let repl := if hasStencilTestMask id then stencilRef (cached id)
              else stencilTestRef id in
  let old := GetPixelStencil GE_FORMAT_8888 stride x y (fb s) in
  fst (DrawSinglePixel_trace false GE_FORMAT_8888 x y z fog color id s)
    = ExitWritten ->
  Z.land m 0xFF000000 = 0 ->
  0 <= repl <= 255 ->
  GetPixelStencil GE_FORMAT_8888 stride x y
    (fb (DrawSinglePixel false GE_FORMAT_8888 x y z fog color id s))
  = if stencilTest id
    then ApplyStencilOp GE_FORMAT_8888 repl (ZPass id) old
    else old.
Proof.
  intros stride m repl old Hexit Hm Hrepl.
  rewrite (trace_written_normal GE_FORMAT_8888 x y z fog color id s Hexit).
  cbn zeta. fold stride m repl old.
  set (st := if stencilTest id
             then ApplyStencilOp GE_FORMAT_8888 repl (ZPass id) old
             else old).
  assert (Hold : 0 <= old <= 255) by apply u8_range.
  assert (Hst : 0 <= st <= 255).
  { subst st. destruct (stencilTest id); [|exact Hold].
    apply ApplyStencilOp_range; assumption. }
  match goal with
  | |- context [DrawSinglePixel_write ?c _ ?x ?y ?z ?p ?i ?k ?st ?s0] =>
      destruct (write_8888_cell c x y z p i k st s0) as (v & Hcell & Hhi & _)
  end.
  unfold GetPixelStencil at 1. unfold Get32. fold stride in Hcell.
  rewrite Hcell. apply high_byte_read; [exact Hst|].
  intros n Hn. rewrite masked_store_bit by lia.
  rewrite (high_byte_mask_bits m n Hm Hn), (Hhi eq_refl n Hn).
  unfold u32. change 0xFFFFFFFF with (Z.ones 32).
  rewrite Z.land_spec, Z.shiftl_spec, Z.testbit_ones by lia.
  destruct (Z.leb_spec 0 n); [|lia]. destruct (Z.ltb_spec n 32); [|lia].
  rewrite !andb_true_r. reflexivity.
Qed.

End FrameBufferFacts.

(** ** Fog and dithering *)

Lemma fog_channel_range c fc fog :
  0 <= c <= 255 -> 0 <= fc <= 255 -> 0 <= fog <= 255 ->
  0 <= Z.quot (c * fog + fc * (255 - fog)) 255 <= 255.
Proof.
  intros Hc Hfc Hfog.
  assert (0 <= c * fog + fc * (255 - fog) <= 255 * 255) by nia.
  rewrite Z.quot_div_nonneg by lia. split.
  - apply Z.div_pos; lia.
  - apply Z.div_le_upper_bound; lia.
Qed.

(** X12: the fog block.  It never changes alpha; for a fog factor in
    0..255 every colour channel stays in 0..255; a factor of 255 leaves
    the colour as it is and a factor of 0 replaces it by the fog colour;
    in clear mode or with fog off nothing changes. *)
Theorem fog_blend_bounds cm fog id color :
  let prim := Vec4_Clamp 0 255 color in
  let out := applyFogStage cm fog id prim in
  a4 out = a4 prim
  /\ (0 <= fog <= 255 ->
      0 <= r4 out <= 255 /\ 0 <= g4 out <= 255 /\ 0 <= b4 out <= 255)
  /\ (fog = 255 -> out = prim)
  /\ (fog = 0 -> applyFog id = true -> cm = false ->
      Vec4_rgb out = Vec3_FromRGB (fogColor (cached id)))
  /\ (applyFog id && negb cm = false -> out = prim).
Proof.
  intros prim out. subst out. unfold applyFogStage.
  pose proof (clamp_u8_range (r4 color)) as Hr.
  pose proof (clamp_u8_range (g4 color)) as Hg.
  pose proof (clamp_u8_range (b4 color)) as Hb.
  destruct (applyFog id && negb cm) eqn:Hfog; cbn.
  - split; [reflexivity|]. split; [|split; [|split]].
    + intros Hf. repeat split;
        apply fog_channel_range; try assumption; apply u8_range.
    + intros ->. subst prim. unfold Vec4_Clamp.
      change (255 - 255) with 0.
      rewrite !Z.mul_0_r, !Z.add_0_r, !Z.quot_mul by lia. reflexivity.
    + intros -> _ _. unfold Vec3_FromRGB. change (255 - 0) with 255.
      rewrite !Z.mul_0_r, !Z.add_0_l, !Z.quot_mul by lia. reflexivity.
    + discriminate.
  - split; [reflexivity|]. split; [|split; [|split]].
    + intros _. split; [exact Hr|]. split; [exact Hg | exact Hb].
    + reflexivity.
    + intros _ Hon Hcm. rewrite Hon, Hcm in Hfog. discriminate.
    + reflexivity.
Qed.

Lemma fog_blend_half :
  0 <= r4 (applyFogStage false 128 (fogID 0x203040)
             (Vec4_Clamp 0 255 (mkVec4 300 0 40 7))) <= 255
  /\ a4 (applyFogStage false 128 (fogID 0x203040)
           (Vec4_Clamp 0 255 (mkVec4 300 0 40 7))) = 7.
Proof.
  destruct (fog_blend_bounds false 128 (fogID 0x203040) (mkVec4 300 0 40 7))
    as (Ha & Hrange & _).
  split; [|exact Ha]. apply Hrange. lia.
Defined.

(** Half-way between the clamped colour and the fog colour. *)
Example fog_blend_half_value :
  applyFogStage false 128 (fogID 0x203040)
    (Vec4_Clamp 0 255 (mkVec4 300 0 40 7))
  = mkVec4 159 23 36 7.
Proof. reflexivity. Qed.

Lemma dither_index_range x y :
  0 <= Z.land y 3 * 4 + Z.land x 3 <= 15.
Proof.
  change 3 with (Z.ones 2). rewrite !Z.land_ones by lia.
  pose proof (Z.mod_pos_bound x (2 ^ 2)).
  pose proof (Z.mod_pos_bound y (2 ^ 2)).
  change (2 ^ 2) with 4 in *. lia.
Qed.

(** X13: the dither offset of a pixel is always an entry of the 16-entry
    matrix, for negative coordinates too, and the pattern repeats every 4
    pixels in x and in y. *)
Theorem dither_in_matrix_and_periodic id x y :
  (length (ditherMatrix (cached id)) = 16%nat ->
   In (ditherAt id x y) (ditherMatrix (cached id)))
  /\ ditherAt id (x + 4) y = ditherAt id x y
  /\ ditherAt id x (y + 4) = ditherAt id x y.
Proof.
  unfold ditherAt. split; [|split].
  - intros Hlen. apply nth_In. rewrite Hlen.
    pose proof (dither_index_range x y). lia.
  - f_equal. f_equal. f_equal.
    change 3 with (Z.ones 2). rewrite !Z.land_ones by lia.
    change (2 ^ 2) with 4. replace (x + 4) with (x + 1 * 4) by lia.
    apply Z.mod_add. lia.
  - f_equal. f_equal. f_equal. f_equal.
    change 3 with (Z.ones 2). rewrite !Z.land_ones by lia.
    change (2 ^ 2) with 4. replace (y + 4) with (y + 1 * 4) by lia.
    apply Z.mod_add. lia.
Qed.

Lemma dither_negative_coordinates :
  In (ditherAt plainID (-1) (-6)) (ditherMatrix (cached plainID)).
Proof.
  destruct (dither_in_matrix_and_periodic plainID (-1) (-6)) as [Hin _].
  apply Hin. reflexivity.
Defined.

(** ** The three comparisons *)

(** X14: in the alpha, stencil and depth tests, a comparison and its
    opposite (NEVER/ALWAYS, EQUAL/NOTEQUAL, LESS/GEQUAL, LEQUAL/GREATER)
    give opposite verdicts on the same operands. *)
Theorem tests_negate_with_comparison :
  (forall id id' alpha,
     AlphaTestFunc id' = negateComparison (AlphaTestFunc id) ->
     alphaTestRef id' = alphaTestRef id ->
     hasAlphaTestMask id' = hasAlphaTestMask id ->
     alphaTestMask (cached id') = alphaTestMask (cached id) ->
     AlphaTestPassed id' alpha = negb (AlphaTestPassed id alpha))
  /\ (forall id id' stencil,
        StencilTestFunc id' = negateComparison (StencilTestFunc id) ->
        stencilTestRef id' = stencilTestRef id ->
        hasStencilTestMask id' = hasStencilTestMask id ->
        stencilTestMask (cached id') = stencilTestMask (cached id) ->
        StencilTestPassed id' stencil = negb (StencilTestPassed id stencil))
  /\ (forall func x y stride z d,
        DepthTestPassed (negateComparison func) x y stride z d
        = negb (DepthTestPassed func x y stride z d)).
Proof.
  assert (Hcmp : forall a b,
            (a =? b) = negb (negb (a =? b))
            /\ (a >=? b) = negb (a <? b) /\ (a <? b) = negb (a >=? b)
            /\ (a >? b) = negb (a <=? b) /\ (a <=? b) = negb (a >? b)).
  { intros a b. rewrite Z.geb_leb, Z.gtb_ltb, negb_involutive.
    destruct (Z.ltb_spec a b), (Z.leb_spec b a), (Z.leb_spec a b),
      (Z.ltb_spec b a); try lia; repeat split. }
  split; [|split].
  - intros id id' alpha Hf Hr Hm Hk. unfold AlphaTestPassed.
    rewrite Hf, Hr, Hm, Hk.
    match goal with
    | |- context [?a =? ?b] => destruct (Hcmp a b) as (H1 & H2 & H3 & H4 & H5)
    end.
    destruct (AlphaTestFunc id); cbn [negateComparison]; try reflexivity;
      assumption.
  - intros id id' stencil Hf Hr Hm Hk. unfold StencilTestPassed.
    rewrite Hf, Hr, Hm, Hk.
    match goal with
    | |- context [?a =? ?b] => destruct (Hcmp a b) as (H1 & H2 & H3 & H4 & H5)
    end.
    destruct (StencilTestFunc id); cbn [negateComparison]; try reflexivity;
      assumption.
  - intros func x y stride z d. unfold DepthTestPassed.
    match goal with
    | |- context [?a =? ?b] => destruct (Hcmp a b) as (H1 & H2 & H3 & H4 & H5)
    end.
    destruct func; cbn [negateComparison]; try reflexivity;
      assumption.
Qed.

(** ** The routine cache, continued *)

Section JitCacheMore.
Context {CB : Type} `{CodeBlockOps CB} `{CodeGen CB} `{JitPlatform}.

Implicit Types (c : PixelJitCache CB) (id k : PixelFuncID) (g : Config).
Implicit Types (key : list Z) (reqs : list (Config * PixelFuncID)).

Lemma maps_agree_step g id c :
  dom (cache_ c) = dom (addresses_ c) ->
  (forall key, key ∈ dom (cache_ c) -> key ∈ fullKey <$> compileLog c) ->
  dom (cache_ (snd (GetSingle g id c)))
    = dom (addresses_ (snd (GetSingle g id c)))
  /\ (forall key, key ∈ dom (cache_ (snd (GetSingle g id c))) ->
        key ∈ fullKey <$> compileLog (snd (GetSingle g id c))).
Proof.
  intros Hdom Hlog. destruct (cache_ c !! fullKey id) as [f|] eqn:Hid.
  - rewrite (GetSingle_hit g id c f Hid). cbn. auto.
  - rewrite (GetSingle_miss g id c Hid).
    set (c0 := if resets id c then Clear c else c).
    assert (Hdom0 : dom (cache_ c0) = dom (addresses_ c0)).
    { subst c0. destruct (resets id c); [cbn; rewrite !dom_empty_L|];
        auto. }
    assert (Hlog0 : forall key, key ∈ dom (cache_ c0) ->
              key ∈ fullKey <$> compileLog c0).
    { subst c0. destruct (resets id c); [|exact Hlog].
      cbn. intros key Hk. rewrite dom_empty_L in Hk. set_solver. }
    destruct (jitEnabled g) eqn:Hjit.
    + destruct (GetSingle_compile_on g id c0 Hjit)
        as (_ & _ & _ & Hc & Ha & Hl).
      rewrite Hc, Ha, Hl, !dom_insert_L, Hdom0. split; [reflexivity|].
      intros key Hk. rewrite fmap_cons.
      apply elem_of_union in Hk as [Hk|Hk].
      * apply elem_of_singleton in Hk as ->. apply list_elem_of_here.
      * apply list_elem_of_further, Hlog0. rewrite Hdom0. exact Hk.
    + rewrite GetSingle_compile_off by exact Hjit. cbn. auto.
Qed.

(** X15: on a cache that started empty, after any run of requests the
    routine map and the address map hold the same keys, and every key
    they hold was handed to the code generator. *)
Theorem cache_maps_hold_same_keys (alloc : Z -> CB) reqs :
  let c := GetSingle_run reqs (PixelJitCache_new alloc) in
  dom (cache_ c) = dom (addresses_ c)
  /\ (forall key, key ∈ dom (cache_ c) -> key ∈ fullKey <$> compileLog c).
Proof.
  cbn zeta.
  assert (Hgen : forall c,
            dom (cache_ c) = dom (addresses_ c) ->
            (forall key, key ∈ dom (cache_ c) ->
               key ∈ fullKey <$> compileLog c) ->
            dom (cache_ (GetSingle_run reqs c))
              = dom (addresses_ (GetSingle_run reqs c))
            /\ (forall key, key ∈ dom (cache_ (GetSingle_run reqs c)) ->
                  key ∈ fullKey <$> compileLog (GetSingle_run reqs c))).
  { induction reqs as [|[g id] reqs IH]; intros c Hdom Hlog; [auto|].
    cbn. destruct (maps_agree_step g id c Hdom Hlog) as [Hd Hl].
    apply IH; assumption. }
  apply Hgen; cbn.
  - rewrite !dom_empty_L. reflexivity.
  - intros key Hk. rewrite dom_empty_L in Hk. set_solver.
Qed.

(** X16: the code buffer never overflows.  If a cleared block has at
    least 65536 bytes left and one routine takes at most 65536 bytes, then
    after any run of requests on a fresh cache the space left is not
    negative.  [good] is whatever the block keeps across [Clear] and
    [CompileSingle], its capacity for instance. *)
Theorem code_buffer_never_overflows (good : CB -> Prop) (alloc : Z -> CB) reqs :
  good (alloc (1024 * 64 * 4)) ->
  0 <= GetSpaceLeft (alloc (1024 * 64 * 4)) ->
  (forall b, good b ->
     good (CodeBlock_Clear b) /\ 65536 <= GetSpaceLeft (CodeBlock_Clear b)) ->
  (forall id b (ks : JitConsts), good b ->
     good (snd (fst (CompileSingle id b ks)))
     /\ GetSpaceLeft b - 65536
        <= GetSpaceLeft (snd (fst (CompileSingle id b ks)))) ->
  let c := GetSingle_run reqs (PixelJitCache_new alloc) in
  good (block c) /\ 0 <= GetSpaceLeft (block c).
Proof.
  intros Hgood0 Hspace0 Hclear Hcompile. cbn zeta.
  assert (Hstep : forall g id c,
            good (block c) /\ 0 <= GetSpaceLeft (block c) ->
            good (block (snd (GetSingle g id c)))
            /\ 0 <= GetSpaceLeft (block (snd (GetSingle g id c)))).
  { intros g id c [Hg Hs].
    destruct (cache_ c !! fullKey id) as [f|] eqn:Hid.
    - rewrite (GetSingle_hit g id c f Hid). auto.
    - rewrite (GetSingle_miss g id c Hid).
      set (c0 := if resets id c then Clear c else c).
      assert (Hc0 : good (block c0) /\ 65536 <= GetSpaceLeft (block c0)).
      { subst c0. unfold resets.
        rewrite Hid, bool_decide_eq_true_2 by reflexivity. cbn [andb].
        destruct (Z.ltb_spec (GetSpaceLeft (block c)) 65536);
          [apply Hclear; exact Hg | auto]. }
      destruct Hc0 as [Hg0 Hs0]. destruct (jitEnabled g) eqn:Hjit.
      + destruct (GetSingle_compile_on g id c0 Hjit) as (_ & Hb & _).
        rewrite Hb.
        destruct (Hcompile id (block c0) (consts c0) Hg0) as [Hg1 Hs1].
        split; [exact Hg1 | lia].
      + rewrite GetSingle_compile_off by exact Hjit. cbn.
        split; [auto | lia]. }
  assert (Hrun : forall c,
            good (block c) /\ 0 <= GetSpaceLeft (block c) ->
            good (block (GetSingle_run reqs c))
            /\ 0 <= GetSpaceLeft (block (GetSingle_run reqs c))).
  { induction reqs as [|[g id] reqs IH]; intros c Hc; [exact Hc|].
    cbn. apply IH, Hstep, Hc. }
  apply Hrun. cbn. auto.
Qed.

End JitCacheMore.

Lemma code_buffer_room_after_requests :
  0 <= GetSpaceLeft
         (block (@GetSingle_run _ _ (emitAtCursor size512) amd64
                   [(jitOn, plainID); (jitOff, stencilEqualID);
                    (jitOn, plainID)]
                   (PixelJitCache_new CodeBlock_alloc))).
Proof.
  destruct (@code_buffer_never_overflows _ _ (emitAtCursor size512) amd64
              (fun b => region_size b = 262144) CodeBlock_alloc
              [(jitOn, plainID); (jitOff, stencilEqualID); (jitOn, plainID)])
    as [_ Hroom].
  - reflexivity.
  - discriminate.
  - intros b Hb. cbn. split; [exact Hb | lia].
  - intros id b k Hb. cbn. split; [exact Hb | unfold size512; lia].
  - exact Hroom.
Defined.

(** ** Blend state analysis, continued *)


Lemma ComputePixelBlendState_body st id :
  ComputePixelBlendState st id
  = if factorWeighted (AlphaBlendEq id) || usesFactors st
    then blendFactorFlags (AlphaBlendSrc id) (AlphaBlendDst id)
           (set_usesFactors true st)
    else st.
Proof.
  unfold ComputePixelBlendState. destruct st as [uf ua dc sc inv].
  destruct (AlphaBlendEq id); cbn [factorWeighted orb usesFactors
    set_usesFactors usesDstAlpha dstColorAsFactor srcColorAsFactor
    dstFactorIsInverse]; try reflexivity; destruct uf; reflexivity.
Qed.

Lemma blendFactorFlags_again src dst st :
  blendFactorFlags src dst (blendFactorFlags src dst st)
  = blendFactorFlags src dst st.
Proof.
  destruct st as [uf ua dc sc inv].
  destruct src, dst, ua, dc; reflexivity.
Qed.

Lemma blendFactorFlags_keeps src dst st :
  usesFactors (blendFactorFlags src dst st) = usesFactors st
  /\ implb (usesDstAlpha st) (usesDstAlpha (blendFactorFlags src dst st))
     = true
  /\ implb (dstColorAsFactor st)
           (dstColorAsFactor (blendFactorFlags src dst st)) = true
  /\ implb (srcColorAsFactor st)
           (srcColorAsFactor (blendFactorFlags src dst st)) = true.
Proof.
  destruct st as [uf ua dc sc inv].
  destruct src, dst, ua, dc, sc; repeat split; reflexivity.
Qed.

Lemma blendFactorFlags_fresh src dst :
  let st := blendFactorFlags src dst
              (set_usesFactors true PixelBlendState_init) in
  usesDstAlpha st = readsDstAlpha src || readsDstAlpha dst
  /\ dstFactorIsInverse st = inversePair src dst.
Proof. destruct src, dst; split; reflexivity. Qed.

Lemma set_usesFactors_same st :
  usesFactors st = true -> set_usesFactors true st = st.
Proof. destruct st as [uf ua dc sc inv]. cbn. intros ->. reflexivity. Qed.

(** X17: [ComputePixelBlendState] only ever sets [usesFactors],
    [usesDstAlpha], [dstColorAsFactor] and [srcColorAsFactor], never
    clears them, and running it a second time with the same configuration
    changes nothing. *)
Theorem ComputePixelBlendState_idempotent st id :
  ComputePixelBlendState (ComputePixelBlendState st id) id
  = ComputePixelBlendState st id
  /\ implb (usesFactors st) (usesFactors (ComputePixelBlendState st id))
     = true
  /\ implb (usesDstAlpha st) (usesDstAlpha (ComputePixelBlendState st id))
     = true
  /\ implb (dstColorAsFactor st)
           (dstColorAsFactor (ComputePixelBlendState st id)) = true
  /\ implb (srcColorAsFactor st)
           (srcColorAsFactor (ComputePixelBlendState st id)) = true.
Proof.
  rewrite (ComputePixelBlendState_body st id).
  destruct (factorWeighted (AlphaBlendEq id) || usesFactors st) eqn:Hb.
  - set (r := blendFactorFlags (AlphaBlendSrc id) (AlphaBlendDst id)
                (set_usesFactors true st)).
    destruct (blendFactorFlags_keeps (AlphaBlendSrc id) (AlphaBlendDst id)
                (set_usesFactors true st)) as (Huf & Hua & Hdc & Hsc).
    fold r in Huf, Hua, Hdc, Hsc.
    change (usesFactors r = true) in Huf.
    rewrite (ComputePixelBlendState_body r id), Huf, orb_true_r.
    rewrite set_usesFactors_same by exact Huf.
    split; [apply blendFactorFlags_again|].
    split; [apply implb_true_r|].
    destruct st; split; [exact Hua|]. split; [exact Hdc | exact Hsc].
  - rewrite (ComputePixelBlendState_body st id), Hb.
    rewrite !implb_same. repeat split.
Qed.

(** X18: for a fresh state, the analysis flags a factor-weighted blend
    exactly for the three multiply equations; then, and only then, it
    flags the use of destination alpha exactly when the source or the
    destination factor reads it, and flags the destination factor as the
    inverse of the source factor exactly for the four pairs of a factor
    and its complement. *)
Theorem ComputePixelBlendState_flags id :
  let st := ComputePixelBlendState PixelBlendState_init id in
  usesFactors st = factorWeighted (AlphaBlendEq id)
  /\ usesDstAlpha st
     = factorWeighted (AlphaBlendEq id)
       && (readsDstAlpha (AlphaBlendSrc id) || readsDstAlpha (AlphaBlendDst id))
  /\ dstFactorIsInverse st
     = factorWeighted (AlphaBlendEq id)
       && inversePair (AlphaBlendSrc id) (AlphaBlendDst id).
Proof.
  cbn zeta. rewrite (ComputePixelBlendState_body PixelBlendState_init id).
  cbn [usesFactors PixelBlendState_init]. rewrite orb_false_r.
  destruct (factorWeighted (AlphaBlendEq id)); [|repeat split].
  destruct (blendFactorFlags_keeps (AlphaBlendSrc id) (AlphaBlendDst id)
              (set_usesFactors true PixelBlendState_init)) as (Huf & _).
  destruct (blendFactorFlags_fresh (AlphaBlendSrc id) (AlphaBlendDst id))
    as (Hua & Hinv).
  split; [exact Huf|]. split; [exact Hua | exact Hinv].
Qed.

(** ** The further properties on concrete pixels *)

Lemma rejected_pixel_sample :
  depthbuf (@DrawSinglePixel colorConvBits blendSource
              false GE_FORMAT_8888 3 4 100 0 (mkVec4 10 20 30 255)
              stencilEqualID (flatSurfaces 0x03112233 77))
  = depthbuf (flatSurfaces 0x03112233 77)
  /\ Z.land (fb (@DrawSinglePixel colorConvBits blendSource
                   false GE_FORMAT_8888 3 4 100 0 (mkVec4 10 20 30 255)
                   stencilEqualID (flatSurfaces 0x03112233 77))
               (3 + 4 * 512)) 0x00FFFFFF
     = 0x112233.
Proof.
  destruct (@rejected_pixel_keeps_depth_and_colour colorConvBits blendSource
              false GE_FORMAT_8888 3 4 100 0 (mkVec4 10 20 30 255)
              stencilEqualID (flatSurfaces 0x03112233 77)) as [Hd Hc].
  - discriminate.
  - split; [exact Hd | exact (Hc (3 + 4 * 512))].
Defined.

Lemma depth_test_failure_sample :
  @DrawSinglePixel_trace colorConvBits blendSource
    false GE_FORMAT_8888 3 4 100 0 (mkVec4 10 20 30 255)
    (depthLessID false) (flatSurfaces 0x03112233 50)
  = (ExitDepthTest, flatSurfaces 0x03112233 50)
  /\ fst (@DrawSinglePixel_trace colorConvBits blendSource
            false GE_FORMAT_8888 3 4 100 0 (mkVec4 10 20 30 255)
            (depthLessID true) (flatSurfaces 0x03112233 50))
     = ExitStencilZFail.
Proof.
  destruct (@depth_test_failure colorConvBits blendSource
              GE_FORMAT_8888 3 4 100 0 (mkVec4 10 20 30 255)
              (depthLessID false) (flatSurfaces 0x03112233 50))
    as [Hoff _]; try reflexivity.
  destruct (@depth_test_failure colorConvBits blendSource
              GE_FORMAT_8888 3 4 100 0 (mkVec4 10 20 30 255)
              (depthLessID true) (flatSurfaces 0x03112233 50))
    as [_ Hon]; try reflexivity.
  split; [apply Hoff; reflexivity|].
  rewrite Hon by reflexivity. reflexivity.
Defined.

(** The depth-fail op INCR moves the stencil of the pixel from 3 to 4. *)
Example depth_fail_increments_stencil :
  fb (@DrawSinglePixel colorConvBits blendSource
        false GE_FORMAT_8888 3 4 100 0 (mkVec4 10 20 30 255)
        (depthLessID true) (flatSurfaces 0x03112233 50)) (3 + 4 * 512)
  = 0x04112233.
Proof. reflexivity. Qed.

Lemma write_mask_sample :
  Z.land (fb (@DrawSinglePixel colorConvBits blendSource
                false GE_FORMAT_8888 3 4 100 0 (mkVec4 10 20 30 255)
                maskedID (flatSurfaces 0x03112233 77)) (3 + 4 * 512))
         0x00FF00FF
  = 0x00110033.
Proof.
  assert (Hm : 0 <= 0x00FF00FF < 2 ^ 32) by (split; [lia | reflexivity]).
  exact (@write_mask_protects_bits colorConvBits blendSource
           false 3 4 100 0 (mkVec4 10 20 30 255) maskedID
           (flatSurfaces 0x03112233 77) Hm (3 + 4 * 512)).
Defined.

Lemma clear_mode_full_clear :
  fb (@DrawSinglePixel colorConvBits blendSource
        true GE_FORMAT_8888 3 4 15 0 (mkVec4 10 20 30 300)
        clearRangeID (flatSurfaces 0x03112233 77)) (3 + 4 * 512)
  = 0xFF1E140A.
Proof.
  destruct (@clear_mode_channel_gating colorConvBits blendSource
              3 4 15 0 (mkVec4 10 20 30 300) clearRangeID
              (flatSurfaces 0x03112233 77)) as (_ & _ & Hall).
  - reflexivity.
  - apply Hall; reflexivity.
Defined.

Lemma written_stencil_byte_sample :
  @GetPixelStencil colorConvBits GE_FORMAT_8888 512 3 4
    (fb (@DrawSinglePixel colorConvBits blendSource
           false GE_FORMAT_8888 3 4 100 0 (mkVec4 10 20 30 255)
           plainID (flatSurfaces 0x03112233 77)))
  = 3.
Proof.
  apply (@written_stencil_byte colorConvBits blendSource
           3 4 100 0 (mkVec4 10 20 30 255) plainID
           (flatSurfaces 0x03112233 77)).
  - reflexivity.
  - reflexivity.
  - cbn. lia.
Defined.

(** The pixel written by the plain configuration: the colour with the old
    stencil byte, not the colour's alpha. *)
Example plain_pixel_written :
  fb (@DrawSinglePixel colorConvBits blendSource
        false GE_FORMAT_8888 3 4 100 0 (mkVec4 10 20 30 255)
        plainID (flatSurfaces 0x03112233 77)) (3 + 4 * 512)
  = 0x031E140A.
Proof. reflexivity. Qed.
